(** * VerificationService: a shallow embedding and its properties

    The development follows
    [services/verification/src/services/VerificationService.ts].
    JavaScript strings are sequences of UTF-16 code units, objects used as
    maps are association lists in insertion order, a thrown exception is the
    left summand of a sum, and every call to a collaborator (compiler,
    repository store, logger, engine) is recorded in a trace. *)

From Stdlib Require Import ZArith NArith List String Ascii Lia Bool.
From stdpp Require Import base list.
Import ListNotations.

Local Open Scope string_scope.
Local Open Scope list_scope.
Local Open Scope N_scope.

(** ** JavaScript strings *)

Module Js.

(** A string is its sequence of UTF-16 code units. *)
Definition jsstring := list N.

(** A literal of the source text (ASCII only). *)
Definition lit (s : string) : jsstring :=
  List.map N_of_ascii (list_ascii_of_string s).

Definition LF : jsstring := [10].

Definition jsstring_eqb (a b : jsstring) : bool :=
  bool_decide (a = b).

(** Truthiness of a string value: only the empty string is falsy. *)
Definition truthy_string (s : jsstring) : bool :=
  match s with [] => false | _ :: _ => true end.

(** ECMAScript [WhiteSpace] and [LineTerminator] code units, the set that
    [String.prototype.trim] and [parseInt] strip. *)
Definition is_whitespace (c : N) : bool :=
  (c =? 9) || (c =? 10) || (c =? 11) || (c =? 12) || (c =? 13) ||
  (c =? 32) || (c =? 160) || (c =? 5760) ||
  ((8192 <=? c) && (c <=? 8202)) ||
  (c =? 8232) || (c =? 8233) || (c =? 8239) || (c =? 8287) ||
  (c =? 12288) || (c =? 65279).

Fixpoint trimStart (s : jsstring) : jsstring :=
  match s with
  | c :: r => if is_whitespace c then trimStart r else s
  | [] => []
  end.

Definition trimEnd (s : jsstring) : jsstring :=
  rev (trimStart (rev s)).

(** [String.prototype.trim]. *)
Definition trim (s : jsstring) : jsstring :=
  trimEnd (trimStart s).

(** [Array.prototype.join] on an array of optional strings: an [undefined]
    element contributes the empty string. *)
Fixpoint join (sep : jsstring) (xs : list (option jsstring)) : jsstring :=
  match xs with
  | [] => []
  | [x] => default [] x
  | x :: rest => default [] x ++ sep ++ join sep rest
  end.

(** *** [parseInt] with the radix argument omitted *)

(** The value of a code unit as a digit of radix [R], if it is one. *)
Definition digit_value (R : Z) (c : N) : option Z :=
  let v :=
    if (48 <=? c) && (c <=? 57) then Some (Z.of_N c - 48)%Z
    else if (97 <=? c) && (c <=? 122) then Some (Z.of_N c - 97 + 10)%Z
    else if (65 <=? c) && (c <=? 90) then Some (Z.of_N c - 65 + 10)%Z
    else None in
  match v with
  | Some d => if (d <? R)%Z then Some d else None
  | None => None
  end.

(** The longest prefix of radix-[R] digits, as digit values. *)
Fixpoint leading_digits (R : Z) (s : jsstring) : list Z :=
  match s with
  | c :: r =>
      match digit_value R c with
      | Some d => d :: leading_digits R r
      | None => []
      end
  | [] => []
  end.

Definition digits_value (R : Z) (ds : list Z) : Z :=
  fold_left (fun acc d => (acc * R + d)%Z) ds 0%Z.

(** The result of [parseInt(s)]: [None] is NaN, [Some n] the integer [n].
    Negative zero is identified with zero (both are falsy).  The value is
    the one the runtime returns as long as its magnitude is at most 2^53;
    beyond that the runtime rounds to a double, or returns Infinity, which
    is not represented here.  Whether the result is zero, NaN or neither is
    the runtime's for every text. *)
Definition parseInt (input : jsstring) : option Z :=
  let inputS := trimStart input in
  let '(sign, afterSign) :=
    match inputS with
    | c :: r =>
        if c =? 45 then ((-1)%Z, r)
        else if c =? 43 then (1%Z, r)
        else (1%Z, inputS)
    | [] => (1%Z, inputS)
    end in
  let '(R, body) :=
    match afterSign with
    | c0 :: c1 :: r =>
        if (c0 =? 48) && ((c1 =? 120) || (c1 =? 88)) then (16%Z, r)
        else (10%Z, afterSign)
    | _ => (10%Z, afterSign)
    end in
  match leading_digits R body with
  | [] => None
  | ds => Some (sign * digits_value R ds)%Z
  end.

(** Truthiness of a number: NaN and zero are falsy. *)
Definition truthy_number (n : option Z) : bool :=
  match n with
  | Some z => negb (z =? 0)%Z
  | None => false
  end.

(** ** Objects used as maps *)

(** Own enumerable string-keyed properties, in insertion order. *)
Definition JsObject (V : Type) := list (jsstring * V).

(** [o[k]] for an own property: the first binding of [k]. *)
Fixpoint get {V} (o : JsObject V) (k : jsstring) : option V :=
  match o with
  | (k', v) :: r => if jsstring_eqb k' k then Some v else get r k
  | [] => None
  end.

(** [Object.keys(o)]. *)
Definition keys {V} (o : JsObject V) : list jsstring :=
  List.map fst o.

Definition has_key {V} (o : JsObject V) (k : jsstring) : bool :=
  match get o k with Some _ => true | None => false end.

End Js.
Import Js.

(** ** Data model *)

(** What a call can throw. [Error] is [new Error(message)]; [TypeError] is
    the runtime's exception for a property read on [undefined];
    [SyntaxError] is thrown by [JSON.parse]; [Thrown] stands for any other
    value a collaborator throws. *)
Inductive JsError :=
| Error (message : jsstring)
| TypeError
| SyntaxError
| Thrown (tag : jsstring).

(** One entry of [output.errors]. *)
Record Diagnostic := {
  severity : option jsstring;
  formattedMessage : option jsstring
}.

(** One entry of [output.contracts[path][name]]. *)
Record Artifact := {
  metadata : option jsstring
}.

(** The compiler's output document; both members may be missing. *)
Record CompilerOutput := {
  contracts : option (JsObject (JsObject Artifact));
  errors : option (list Diagnostic)
}.

(** The options handed to [Injector.createAsync].  The [log] and
    [fileService] members are the service's own two fields and are not
    repeated here. *)
Record InjectorConfig := {
  cfg_repositoryPath : jsstring;
  cfg_web3timeout : option Z
}.

(** The collaborators of the service: the compiler routine of [../utils],
    the [IFileService] held in [this.fileService], [process.env], the
    [Injector] class and [JSON.parse].  Each effectful call is a function of
    the outside world. *)
Class Collaborators := {
  World : Type;
  Match : Type;
  Metadata : Type;
  JsonInput : Type;
  InjectorInput : Type;
  CheckedContract : Type;
  Any : Type;
  Injector : Type;
  JSON_parse : jsstring -> option Metadata;
  JSON_parse_empty : JSON_parse [] = None;
  useCompiler :
    jsstring -> JsonInput -> World -> (JsError + CompilerOutput) * World;
  repositoryPath : jsstring;
  fileService_findByAddress :
    jsstring -> jsstring -> World -> (JsError + list Match) * World;
  fileService_findAllByAddress :
    jsstring -> jsstring -> World -> (JsError + list Match) * World;
  env_WEB3_TIMEOUT : World -> option jsstring;
  Injector_createAsync :
    InjectorConfig -> World -> (JsError + Injector) * World;
  Injector_inject :
    Injector -> InjectorInput -> World -> (JsError + Match) * World;
  Injector_verifyCreate2 :
    Injector -> CheckedContract -> jsstring -> jsstring -> Any -> jsstring ->
    World -> (JsError + Match) * World;
  Injector_recompile :
    Injector -> CheckedContract -> World -> (JsError + Any) * World;
  Injector_getBytecode :
    Injector -> jsstring -> jsstring -> World -> (JsError + jsstring) * World
}.

(** ** The service *)

Section VerificationService.

Context `{Collaborators}.

(** The calls the service makes on its collaborators, in order. *)
Inductive Event :=
| EvUseCompiler (compilerVersion : jsstring) (compilerJson : JsonInput)
| EvLoggerError
    (loc contractPath contractName compilerVersion errorMessages : jsstring)
| EvLoggerInfo (loc address msg : jsstring)
| EvFindByAddress (address chain : jsstring)
| EvFindAllByAddress (address chain : jsstring)
| EvCreateAsync (config : InjectorConfig)
| EvInject (engine : Injector) (injectorInput : InjectorInput)
| EvVerifyCreate2
    (engine : Injector) (contract : CheckedContract)
    (deployerAddress salt : jsstring) (constructorArgs : Any)
    (create2Address : jsstring)
| EvRecompile (engine : Injector) (contract : CheckedContract)
| EvGetBytecode (engine : Injector) (address chainId : jsstring).

(** [this.injector], the calls made so far, and the outside world. *)
Record State := {
  injector : option Injector;
  trace : list Event;
  world : World
}.

(** Computations that read and write the state and may throw. *)
Definition M (A : Type) : Type := State -> (JsError + A) * State.

Definition ret {A} (a : A) : M A :=
  fun s => (inr a, s).

Definition throw {A} (e : JsError) : M A :=
  fun s => (inl e, s).

Definition bind {A B} (m : M A) (k : A -> M B) : M B :=
  fun s =>
    match m s with
    | (inr a, s') => k a s'
    | (inl e, s') => (inl e, s')
    end.

(** [try { body } catch (err) { handler(err) }]. *)
Definition try_catch {A} (body : M A) (handler : JsError -> M A) : M A :=
  fun s =>
    match body s with
    | (inr a, s') => (inr a, s')
    | (inl e, s') => handler e s'
    end.

Definition record (e : Event) : M unit :=
  fun s =>
    (inr tt, {| injector := injector s; trace := trace s ++ [e];
                world := world s |}).

(** A call into a collaborator: recorded, then run on the world. *)
Definition call {A} (e : Event) (f : World -> (JsError + A) * World) : M A :=
  fun s =>
    let '(r, w) := f (world s) in
    (r, {| injector := injector s; trace := trace s ++ [e]; world := w |}).

Definition set_injector (e : Injector) : M unit :=
  fun s =>
    (inr tt, {| injector := Some e; trace := trace s; world := world s |}).

End VerificationService.

Declare Scope svc_scope.
Delimit Scope svc_scope with svc.
Notation "'let*' x ':=' m 'in' k" :=
  (bind m (fun x => k))
  (at level 10, x name, m at level 100, k at level 200) : svc_scope.
Notation "m ';;' k" :=
  (bind m (fun _ => k))
  (at level 100, k at level 200, right associativity) : svc_scope.

Local Open Scope svc_scope.

Section Operations.

Context `{Collaborators}.

(** *** Metadata resolution *)

(** Modelled from the spec: [findContractPathFromContractName] of
    [../utils] is not part of the sources at hand.  It searches the
    file-to-contracts mapping for the file path whose contract set contains
    the name: the first such path in the mapping's own order, nothing when
    there is none or when the mapping itself is missing. *)
Definition findContractPathFromContractName
    (contracts : option (JsObject (JsObject Artifact)))
    (contractName : jsstring) : option jsstring :=
  match contracts with
  | Some files =>
      List.find
        (fun path =>
           match get files path with
           | Some contractsList => has_key contractsList contractName
           | None => false
           end)
        (keys files)
  | None => None
  end.

(** The value of
    [output.contracts[contractPath][contractName].metadata] when none of the
    four tests of the guard is falsy. *)
Definition present_metadata
    (output : CompilerOutput) (contractPath contractName : jsstring)
    : option jsstring :=
  match contracts output with
  | None => None
  | Some files =>
      match get files contractPath with
      | None => None
      | Some contractsList =>
          match get contractsList contractName with
          | None => None
          | Some artifact =>
              match metadata artifact with
              | None => None
              | Some m => if truthy_string m then Some m else None
              end
          end
      end
  end.

Definition is_error (e : Diagnostic) : bool :=
  match severity e with
  | Some sev => jsstring_eqb sev (lit "error")
  | None => false
  end.

(** [errors.filter(e => e.severity === "error")
          .map(e => e.formattedMessage).join("\n")]. *)
Definition errorMessages_of (errs : list Diagnostic) : jsstring :=
  join LF (List.map formattedMessage (List.filter is_error errs)).

Definition not_found_message (contractName : jsstring) : jsstring :=
  lit "Contract " ++ contractName ++ lit " not found in compiler output".

Definition compiler_error_message (errorMessages : jsstring) : jsstring :=
  lit "Compiler error:" ++ LF ++ lit " " ++ errorMessages.

(** The part of [getMetadataFromJsonInput] after the compiler returned. *)
Definition metadata_of_output
    (compilerVersion contractName : jsstring) (output : CompilerOutput)
    : M Metadata :=
  match findContractPathFromContractName (contracts output) contractName with
  | None => throw (Error (not_found_message contractName))
  | Some contractPath =>
      if negb (truthy_string contractPath)
      then throw (Error (not_found_message contractName))
      else
        match present_metadata output contractPath contractName with
        | None =>
            match errors output with
            | None => throw TypeError
            | Some errs =>
                let errorMessages := errorMessages_of errs in
                record (EvLoggerError (lit "[VERIFY-WITH-JSON]") contractPath
                          contractName compilerVersion errorMessages) ;;
                throw (Error (compiler_error_message errorMessages))
            end
        | Some m =>
            match JSON_parse (trim m) with
            | Some doc => ret doc
            | None => throw SyntaxError
            end
        end
  end.

Definition getMetadataFromJsonInput
    (compilerVersion contractName : jsstring) (compilerJson : JsonInput)
    : M Metadata :=
  let* output :=
    call (EvUseCompiler compilerVersion compilerJson)
         (useCompiler compilerVersion compilerJson) in
  metadata_of_output compilerVersion contractName output.

(** *** Lookups by address *)

Definition findByAddress (address chain : jsstring) : M (list Match) :=
  let* matches :=
    try_catch
      (call (EvFindByAddress address chain)
            (fileService_findByAddress address chain))
      (fun _ =>
         record (EvLoggerInfo (lit "[POST:VERIFICATION_BY_ADDRESS_FAILED]")
                   address (lit "Could not find file in repository")) ;;
         ret []) in
  ret matches.

Definition findAllByAddress (address chain : jsstring) : M (list Match) :=
  let* matches :=
    try_catch
      (call (EvFindAllByAddress address chain)
            (fileService_findAllByAddress address chain))
      (fun _ =>
         record (EvLoggerInfo (lit "[POST:VERIFICATION_BY_ADDRESS_FAILED]")
                   address (lit "Could not find file in repository")) ;;
         ret []) in
  ret matches.

(** *** The engine and the four delegated operations *)

(** [parseInt(process.env.WEB3_TIMEOUT || "") || undefined]. *)
Definition web3timeout_of (env : option jsstring) : option Z :=
  let text :=
    match env with
    | Some v => if truthy_string v then v else lit ""
    | None => lit ""
    end in
  let parsed := parseInt text in
  if truthy_number parsed then parsed else None.

Definition injectorConfig (w : World) : InjectorConfig :=
  {| cfg_repositoryPath := repositoryPath;
     cfg_web3timeout := web3timeout_of (env_WEB3_TIMEOUT w) |}.

(** The call [Injector.createAsync({...})]; the options are read when the
    call is made. *)
Definition createInjector : M Injector :=
  fun s =>
    let config := injectorConfig (world s) in
    call (EvCreateAsync config) (Injector_createAsync config) s.

(** The block every delegated operation starts with:
    [if (!this.injector) { this.injector = await Injector.createAsync(..) }],
    followed by the read of [this.injector]. *)
Definition ensureInjector : M Injector :=
  fun s =>
    match injector s with
    | Some engine => ret engine s
    | None =>
        (let* created := createInjector in
         set_injector created ;;
         fun s' =>
           match injector s' with
           | Some engine => ret engine s'
           | None => throw TypeError s'
           end) s
    end.

Definition inject (injectorInput : InjectorInput) : M Match :=
  let* engine := ensureInjector in
  call (EvInject engine injectorInput) (Injector_inject engine injectorInput).

Definition verifyCreate2
    (contract : CheckedContract) (deployerAddress salt : jsstring)
    (constructorArgs : Any) (create2Address : jsstring) : M Match :=
  let* engine := ensureInjector in
  call (EvVerifyCreate2 engine contract deployerAddress salt constructorArgs
          create2Address)
       (Injector_verifyCreate2 engine contract deployerAddress salt
          constructorArgs create2Address).

Definition recompile (contract : CheckedContract) : M Any :=
  let* engine := ensureInjector in
  call (EvRecompile engine contract) (Injector_recompile engine contract).

Definition getBytecode (address chainId : jsstring) : M jsstring :=
  let* engine := ensureInjector in
  call (EvGetBytecode engine address chainId)
       (Injector_getBytecode engine address chainId).

(** *** The delegated operations as interleaved tasks

    An [async] method runs without interruption from one [await] to the
    next.  A delegated operation has one [await] that matters to the
    service's own state, the one on [Injector.createAsync]: the call is made
    before the method suspends, the assignment to [this.injector] happens
    when it resumes. *)

Inductive EngineOp :=
| OpInject (injectorInput : InjectorInput)
| OpVerifyCreate2
    (contract : CheckedContract) (deployerAddress salt : jsstring)
    (constructorArgs : Any) (create2Address : jsstring)
| OpRecompile (contract : CheckedContract)
| OpGetBytecode (address chainId : jsstring).

Inductive Value :=
| VMatch (m : Match)
| VAny (a : Any)
| VString (s : jsstring).

Definition fmap {A B} (f : A -> B) (m : M A) : M B :=
  let* a := m in ret (f a).

(** The engine call an operation ends with. *)
Definition engine_call (engine : Injector) (op : EngineOp) : M Value :=
  match op with
  | OpInject i =>
      fmap VMatch (call (EvInject engine i) (Injector_inject engine i))
  | OpVerifyCreate2 c d sa a c2 =>
      fmap VMatch
        (call (EvVerifyCreate2 engine c d sa a c2)
              (Injector_verifyCreate2 engine c d sa a c2))
  | OpRecompile c =>
      fmap VAny (call (EvRecompile engine c) (Injector_recompile engine c))
  | OpGetBytecode a c =>
      fmap VString
        (call (EvGetBytecode engine a c) (Injector_getBytecode engine a c))
  end.

(** The four methods under one name. *)
Definition delegated (op : EngineOp) : M Value :=
  match op with
  | OpInject i => fmap VMatch (inject i)
  | OpVerifyCreate2 c d sa a c2 => fmap VMatch (verifyCreate2 c d sa a c2)
  | OpRecompile c => fmap VAny (recompile c)
  | OpGetBytecode a c => fmap VString (getBytecode a c)
  end.

(** Calls made one after the other, each awaited before the next. *)
Definition run_sequential (ops : list EngineOp) (s : State) : State :=
  fold_left (fun st op => snd (delegated op st)) ops s.

(** A call in flight: suspended on its construction, whose outcome it will
    receive on resumption, or settled with the engine it forwarded to. *)
Inductive Task :=
| Suspended (op : EngineOp) (pending : JsError + Injector)
| Settled (used : option Injector) (result : JsError + Value).

Record Sys := {
  svc : State;
  tasks : list Task
}.

(** A caller invokes the operation: the method runs up to its first
    [await].  When the engine is there already the engine call is made at
    once; its own completion is not a step of the service and is folded
    into the call. *)
Definition invoke (sys : Sys) (op : EngineOp) : Sys :=
  match injector (svc sys) with
  | None =>
      let '(pending, s') := createInjector (svc sys) in
      {| svc := s'; tasks := tasks sys ++ [Suspended op pending] |}
  | Some engine =>
      let '(r, s') := engine_call engine op (svc sys) in
      {| svc := s'; tasks := tasks sys ++ [Settled (Some engine) r] |}
  end.

(** The construction awaited by task [i] settles and the task runs to its
    end: on success it assigns [this.injector] and forwards to
    [this.injector]; on failure the exception leaves the method. *)
Definition resume (sys : Sys) (i : nat) : Sys :=
  match tasks sys !! i with
  | Some (Suspended op (inr created)) =>
      let '(_, s1) := set_injector created (svc sys) in
      match injector s1 with
      | Some engine =>
          let '(r, s2) := engine_call engine op s1 in
          {| svc := s2; tasks := <[i := Settled (Some engine) r]> (tasks sys) |}
      | None =>
          {| svc := s1; tasks := <[i := Settled None (inl TypeError)]> (tasks sys) |}
      end
  | Some (Suspended op (inl e)) =>
      {| svc := svc sys; tasks := <[i := Settled None (inl e)]> (tasks sys) |}
  | _ => sys
  end.

(** [ops] are all invoked before any construction settles; the suspended
    calls then resume in the order [order]. *)
Definition concurrent_calls
    (ops : list EngineOp) (order : list nat) (s : State) : Sys :=
  fold_left resume order
    (fold_left invoke ops {| svc := s; tasks := [] |}).

Definition is_construction (e : Event) : bool :=
  match e with
  | EvCreateAsync _ => true
  | _ => false
  end.

(** How many engines the calls of a trace constructed. *)
Definition constructions (tr : list Event) : nat :=
  length (List.filter is_construction tr).

(** The engine a call of the trace was forwarded to. *)
Definition engine_of_event (e : Event) : option Injector :=
  match e with
  | EvInject engine _ => Some engine
  | EvVerifyCreate2 engine _ _ _ _ _ => Some engine
  | EvRecompile engine _ => Some engine
  | EvGetBytecode engine _ _ => Some engine
  | _ => None
  end.


End Operations.

(** ** Vocabulary of the properties *)

Section Vocabulary.

Context `{Collaborators}.

(** The contract set stored under [path] contains [contractName]. *)
Definition contains_contract
    (output : CompilerOutput) (path contractName : jsstring) : Prop :=
  exists files contractsList,
    contracts output = Some files /\
    get files path = Some contractsList /\
    has_key contractsList contractName = true.

(** The artifact of [contractName] under [path] carries the metadata string
    [m]. *)
Definition has_metadata
    (output : CompilerOutput) (path contractName m : jsstring) : Prop :=
  exists files contractsList artifact,
    contracts output = Some files /\
    get files path = Some contractsList /\
    get contractsList contractName = Some artifact /\
    metadata artifact = Some m.

(** The state a single collaborator call leaves behind. *)
Definition after_call (s : State) (e : Event) (w : World) : State :=
  {| injector := injector s; trace := trace s ++ [e]; world := w |}.

(** What a method returns when it hands the collaborator's outcome on as it
    is, after the single call [e]. *)
Definition forwarded {A}
    (s : State) (e : Event) (outcome : (JsError + A) * World)
    : (JsError + A) * State :=
  (fst outcome, after_call s e (snd outcome)).

(** The two lookups under one name. *)
Inductive Lookup := ByAddress | AllByAddress.

Definition lookup_by (k : Lookup) : jsstring -> jsstring -> M (list Match) :=
  match k with
  | ByAddress => findByAddress
  | AllByAddress => findAllByAddress
  end.

Definition store_lookup (k : Lookup)
    : jsstring -> jsstring -> World -> (JsError + list Match) * World :=
  match k with
  | ByAddress => fileService_findByAddress
  | AllByAddress => fileService_findAllByAddress
  end.

Definition store_event (k : Lookup) : jsstring -> jsstring -> Event :=
  match k with
  | ByAddress => EvFindByAddress
  | AllByAddress => EvFindAllByAddress
  end.



End Vocabulary.

(** ** A concrete set of collaborators

    The compiler returns the document it is given as input, the repository
    store always fails, engines are numbered in construction order, and
    [JSON.parse] is replaced by a stand-in that rejects the empty text and
    returns any other text as the document. *)

Record DemoWorld := {
  dw_env : option jsstring;
  dw_built : nat
}.

Definition demo_parse (text : jsstring) : option jsstring :=
  match text with
  | [] => None
  | _ :: _ => Some text
  end.

Definition demo : Collaborators := {|
  World := DemoWorld;
  Match := nat;
  Metadata := jsstring;
  JsonInput := JsError + CompilerOutput;
  InjectorInput := nat;
  CheckedContract := nat;
  Any := nat;
  Injector := nat;
  JSON_parse := demo_parse;
  JSON_parse_empty := eq_refl;
  useCompiler := fun _ input w => (input, w);
  repositoryPath := lit "/repository";
  fileService_findByAddress :=
    fun _ _ w => (inl (Error (lit "ENOENT")), w);
  fileService_findAllByAddress :=
    fun _ _ w => (inl (Error (lit "ENOENT")), w);
  env_WEB3_TIMEOUT := dw_env;
  Injector_createAsync :=
    fun _ w =>
      (inr (dw_built w),
       {| dw_env := dw_env w; dw_built := Datatypes.S (dw_built w) |});
  Injector_inject := fun engine i w => (inr (engine + i)%nat, w);
  Injector_verifyCreate2 := fun engine c _ _ _ _ w => (inr (engine + c)%nat, w);
  Injector_recompile := fun engine c w => (inr (engine + c)%nat, w);
  Injector_getBytecode := fun engine a _ w => (inr a, w)
|}.

Definition demo_state (env : option jsstring) : @State demo :=
  @Build_State demo None []
    ({| dw_env := env; dw_built := 0%nat |} : @World demo).

(** The engine the stand-in constructs as its [n]-th, counting from 0. *)
Definition engine_no (n : nat) : @Injector demo := n.

(** The compiler input that makes the stand-in compiler return [output]. *)
Definition compiles_to (output : CompilerOutput) : @JsonInput demo :=
  inr output.

Definition quote : jsstring := [34].

(** The output of the spec's scenarios: one file [A.sol] with one contract
    [Foo] whose metadata is the text of [{"version":1}]. *)
Definition sample_metadata : jsstring :=
  lit "{" ++ quote ++ lit "version" ++ quote ++ lit ":1}".

Definition sample_output : CompilerOutput :=
  {| contracts :=
       Some [(lit "A.sol", [(lit "Foo", {| metadata := Some sample_metadata |})])];
     errors := Some [] |}.

Definition syntax_error : Diagnostic :=
  {| severity := Some (lit "error");
     formattedMessage := Some (lit "syntax error") |}.

(** No contracts at all and one error diagnostic. *)
Definition failed_output : CompilerOutput :=
  {| contracts := Some []; errors := Some [syntax_error] |}.

(** The contract sits under the file path that is the empty string. *)
Definition unnamed_file_output : CompilerOutput :=
  {| contracts :=
       Some [(lit "", [(lit "Foo", {| metadata := Some sample_metadata |})])];
     errors := Some [] |}.

(** The contract is there, its metadata is not, and there are warnings
    only. *)
Definition no_metadata_output : CompilerOutput :=
  {| contracts := Some [(lit "A.sol", [(lit "Foo", {| metadata := None |})])];
     errors :=
       Some [{| severity := Some (lit "warning");
                formattedMessage := Some (lit "unused variable") |}] |}.

(** Whitespace-only metadata and no diagnostics member. *)
Definition blank_metadata_output : CompilerOutput :=
  {| contracts :=
       Some [(lit "A.sol", [(lit "Foo", {| metadata := Some (lit "  ") |})])];
     errors := None |}.

(** ** Requests served one after the other *)

Section Requests.

Context `{Collaborators}.

(** A call of any of the seven methods of [IVerificationService]. *)
Inductive Request :=
| ReqFindByAddress (address chain : jsstring)
| ReqFindAllByAddress (address chain : jsstring)
| ReqGetMetadata (compilerVersion contractName : jsstring)
    (compilerJson : JsonInput)
| ReqEngine (op : EngineOp).

(** The state a request leaves behind, whatever it returned or threw. *)
Definition serve (s : State) (r : Request) : State :=
  match r with
  | ReqFindByAddress a c => snd (findByAddress a c s)
  | ReqFindAllByAddress a c => snd (findAllByAddress a c s)
  | ReqGetMetadata v n j => snd (getMetadataFromJsonInput v n j s)
  | ReqEngine op => snd (delegated op s)
  end.

(** Requests served in sequence, each awaited before the next. *)
Definition serve_all (reqs : list Request) (s : State) : State :=
  fold_left serve reqs s.

End Requests.

(** ** Arbitrary interleavings *)

Section Schedules.

Context `{Collaborators}.

(** What can happen next to the service: a caller invokes a delegated
    operation, or the construction awaited by task [i] settles. *)
Inductive Action :=
| Invoke (op : EngineOp)
| Resume (i : nat).

Definition step (sys : Sys) (a : Action) : Sys :=
  match a with
  | Invoke op => invoke sys op
  | Resume i => resume sys i
  end.

Definition run_schedule (sched : list Action) (sys : Sys) : Sys :=
  fold_left step sched sys.

Definition invocations (sched : list Action) : nat :=
  length (List.filter (fun a => match a with Invoke _ => true | _ => false end)
            sched).

End Schedules.

(** ** What each call in flight is to do *)

Section OwnCalls.

Context `{Collaborators}.

Definition lift_outcome {A} (f : A -> Value)
    (outcome : (JsError + A) * World) : (JsError + Value) * World :=
  (match fst outcome with
   | inl e => inl e
   | inr a => inr (f a)
   end,
   snd outcome).

(** The call on [engine] that the operation [op] asks for, with the
    arguments of [op]. *)
Definition engine_event (engine : Injector) (op : EngineOp) : Event :=
  match op with
  | OpInject i => EvInject engine i
  | OpVerifyCreate2 c d sa a c2 => EvVerifyCreate2 engine c d sa a c2
  | OpRecompile c => EvRecompile engine c
  | OpGetBytecode a c => EvGetBytecode engine a c
  end.

(** What [engine] answers to that call in the world [w]. *)
Definition engine_outcome (engine : Injector) (op : EngineOp) (w : World)
    : (JsError + Value) * World :=
  match op with
  | OpInject i => lift_outcome VMatch (Injector_inject engine i w)
  | OpVerifyCreate2 c d sa a c2 =>
      lift_outcome VMatch (Injector_verifyCreate2 engine c d sa a c2 w)
  | OpRecompile c => lift_outcome VAny (Injector_recompile engine c w)
  | OpGetBytecode a c =>
      lift_outcome VString (Injector_getBytecode engine a c w)
  end.





End OwnCalls.

(** ** A second set of collaborators

    As the first, except that the repository store succeeds with the
    matches the world holds, and the first [lw_failures] constructions of
    an engine fail. *)

Record LabWorld := {
  lw_env : option jsstring;
  lw_built : nat;
  lw_failures : nat;
  lw_matches : list nat
}.

Definition lab_createAsync (w : LabWorld) : (JsError + nat) * LabWorld :=
  match lw_failures w with
  | Datatypes.S k =>
      (inl (Error (lit "ECONNREFUSED")),
       {| lw_env := lw_env w; lw_built := lw_built w; lw_failures := k;
          lw_matches := lw_matches w |})
  | O =>
      (inr (lw_built w),
       {| lw_env := lw_env w; lw_built := Datatypes.S (lw_built w);
          lw_failures := O; lw_matches := lw_matches w |})
  end.

Definition lab : Collaborators := {|
  World := LabWorld;
  Match := nat;
  Metadata := jsstring;
  JsonInput := JsError + CompilerOutput;
  InjectorInput := nat;
  CheckedContract := nat;
  Any := nat;
  Injector := nat;
  JSON_parse := demo_parse;
  JSON_parse_empty := eq_refl;
  useCompiler := fun _ input w => (input, w);
  repositoryPath := lit "/repository";
  fileService_findByAddress := fun _ _ w => (inr (lw_matches w), w);
  fileService_findAllByAddress := fun _ _ w => (inr (lw_matches w), w);
  env_WEB3_TIMEOUT := lw_env;
  Injector_createAsync := fun _ w => lab_createAsync w;
  Injector_inject := fun engine i w => (inr (engine + i)%nat, w);
  Injector_verifyCreate2 := fun engine c _ _ _ _ w => (inr (engine + c)%nat, w);
  Injector_recompile := fun engine c w => (inr (engine + c)%nat, w);
  Injector_getBytecode := fun engine a _ w => (inr a, w)
|}.

Definition lab_world (failures : nat) (found : list nat) : @World lab :=
  {| lw_env := None; lw_built := 0%nat; lw_failures := failures;
     lw_matches := found |}.

Definition lab_state (failures : nat) (found : list nat) : @State lab :=
  @Build_State lab None [] (lab_world failures found).

Definition lab_engine (n : nat) : @Injector lab := n.

Definition lab_inject (i : nat) : @EngineOp lab := OpInject (H := lab) i.

Definition lab_compiles_to (output : CompilerOutput) : @JsonInput lab :=
  inr output.

Definition unused_warning : Diagnostic :=
  {| severity := Some (lit "warning");
     formattedMessage := Some (lit "unused variable") |}.

(** The contract is there without metadata; one error and one warning. *)
Definition errors_output : CompilerOutput :=
  {| contracts := Some [(lit "A.sol", [(lit "Foo", {| metadata := None |})])];
     errors := Some [unused_warning; syntax_error] |}.

(** The contract is there without metadata and there is no diagnostics
    member. *)
Definition no_diagnostics_output : CompilerOutput :=
  {| contracts := Some [(lit "A.sol", [(lit "Foo", {| metadata := None |})])];
     errors := None |}.

(** ** Sample runs *)

Example trim_sample :
  trim (lit "  {} " ++ LF) = lit "{}".
Proof. reflexivity. Qed.

Example parseInt_samples :
  parseInt (lit "15x") = Some 15%Z /\
  parseInt (lit "0") = Some 0%Z /\
  parseInt (lit " -0x1F") = Some (-31)%Z /\
  parseInt (lit "") = None /\
  parseInt (lit "abc") = None.
Proof. repeat split; reflexivity. Qed.

Example join_samples :
  join LF [Some (lit "a"); None; Some (lit "b")] = lit "a" ++ LF ++ LF ++ lit "b" /\
  join LF [] = lit "".
Proof. split; reflexivity. Qed.

(** The success scenario of the spec: the metadata text comes back. *)
Example scenario_success :
  fst (getMetadataFromJsonInput (H := demo)
         (lit "0.8.4") (lit "Foo") (compiles_to sample_output)
         (demo_state None))
  = inr sample_metadata.
Proof. vm_compute. reflexivity. Qed.

(** The missing-contract scenario of the spec. *)
Example scenario_missing_contract :
  fst (getMetadataFromJsonInput (H := demo)
         (lit "0.8.4") (lit "Bar") (compiles_to sample_output)
         (demo_state None))
  = inl (Error (lit "Contract Bar not found in compiler output")).
Proof. vm_compute. reflexivity. Qed.

(** ** Objects and the path search *)

Section PathSearch.

Context `{Collaborators}.

Lemma jsstring_eqb_true (a b : jsstring) :
  jsstring_eqb a b = true <-> a = b.
Proof. unfold jsstring_eqb. apply bool_decide_eq_true. Qed.

Lemma get_in_keys {V} (o : JsObject V) (k : jsstring) (v : V) :
  get o k = Some v -> In k (keys o).
Proof.
  induction o as [|[k' v'] o IH]; simpl; [discriminate|].
  destruct (jsstring_eqb k' k) eqn:E.
  - apply jsstring_eqb_true in E. intros _. left. exact E.
  - intros Hg. right. apply IH. exact Hg.
Qed.

Lemma find_path_some (output : CompilerOutput) (name path : jsstring) :
  findContractPathFromContractName (contracts output) name = Some path ->
  contains_contract output path name.
Proof.
  unfold findContractPathFromContractName, contains_contract.
  destruct (contracts output) as [files|]; [|discriminate].
  intros Hf. apply find_some in Hf as [_ Hp].
  destruct (get files path) as [set|] eqn:Hg; [|discriminate].
  exists files, set. auto.
Qed.

Lemma find_path_none (output : CompilerOutput) (name : jsstring) :
  findContractPathFromContractName (contracts output) name = None <->
  forall path, ~ contains_contract output path name.
Proof.
  split.
  - intros Hf path (files & set & Hc & Hg & Hk).
    unfold findContractPathFromContractName in Hf. rewrite Hc in Hf.
    pose proof (find_none _ _ Hf path (get_in_keys _ _ _ Hg)) as Hn.
    simpl in Hn. rewrite Hg in Hn. congruence.
  - intros Hno.
    destruct (findContractPathFromContractName (contracts output) name)
      as [p|] eqn:Hf; [|reflexivity].
    exfalso. exact (Hno p (find_path_some _ _ _ Hf)).
Qed.

Lemma has_key_get {V} (o : JsObject V) (k : jsstring) (v : V) :
  get o k = Some v -> has_key o k = true.
Proof. unfold has_key. intros ->. reflexivity. Qed.

Lemma has_metadata_contains (output : CompilerOutput) (path name m : jsstring) :
  has_metadata output path name m -> contains_contract output path name.
Proof.
  intros (files & set & art & Hc & Hg & Ha & _).
  exists files, set. eauto using has_key_get.
Qed.

(** What [present_metadata] finds is a non-empty metadata string of the
    output. *)
Lemma present_metadata_some (output : CompilerOutput) (path name m : jsstring) :
  present_metadata output path name = Some m <->
  has_metadata output path name m /\ m <> [].
Proof.
  unfold present_metadata, has_metadata. split.
  - destruct (contracts output) as [files|] eqn:Hc; [|discriminate].
    destruct (get files path) as [set|] eqn:Hg; [|discriminate].
    destruct (get set name) as [art|] eqn:Ha; [|discriminate].
    destruct (metadata art) as [m'|] eqn:Hm; [|discriminate].
    destruct m' as [|c r]; simpl; [discriminate|].
    intros [= <-]. split; [|discriminate].
    exists files, set, art. repeat split; assumption.
  - intros [(files & set & art & -> & -> & -> & ->) Hne].
    destruct m; [congruence|reflexivity].
Qed.

Lemma present_metadata_none (output : CompilerOutput) (path name : jsstring) :
  present_metadata output path name = None <->
  forall m, has_metadata output path name m -> m = [].
Proof.
  split.
  - intros Hn m Hm. destruct m as [|c r]; [reflexivity|].
    assert (present_metadata output path name = Some (c :: r)) as Hs
      by (apply present_metadata_some; split; [exact Hm|discriminate]).
    congruence.
  - intros Hall.
    destruct (present_metadata output path name) as [m|] eqn:Hp;
      [|reflexivity].
    apply present_metadata_some in Hp as [Hm Hne].
    exfalso. exact (Hne (Hall m Hm)).
Qed.

End PathSearch.

(** ** Metadata resolution *)

Section MetadataResolution.

Context `{Collaborators}.

Lemma trimStart_whitespace (s : jsstring) :
  forallb is_whitespace s = true -> trimStart s = [].
Proof.
  induction s as [|c r IH]; simpl; [reflexivity|].
  intros Hw. apply andb_true_iff in Hw as [Hc Hr].
  rewrite Hc. exact (IH Hr).
Qed.

Lemma trim_whitespace (s : jsstring) :
  forallb is_whitespace s = true -> trim s = [].
Proof.
  intros Hw. unfold trim. rewrite (trimStart_whitespace s Hw). reflexivity.
Qed.

(** The compiler's answer is the only thing [getMetadataFromJsonInput]
    takes from the call. *)
Lemma getMetadataFromJsonInput_returned
    (v name : jsstring) (input : JsonInput) (s : State)
    (output : CompilerOutput) (w' : World) :
  useCompiler v input (world s) = (inr output, w') ->
  getMetadataFromJsonInput v name input s =
  metadata_of_output v name output (after_call s (EvUseCompiler v input) w').
Proof.
  intros Hc. unfold getMetadataFromJsonInput, bind, call. rewrite Hc.
  reflexivity.
Qed.

(** When no non-empty metadata string is found the method throws. *)
Lemma metadata_of_output_missing
    (v name : jsstring) (output : CompilerOutput) (s : State)
    (path : jsstring) :
  findContractPathFromContractName (contracts output) name = Some path ->
  path <> [] ->
  present_metadata output path name = None ->
  metadata_of_output v name output s =
  match errors output with
  | None => (inl TypeError, s)
  | Some errs =>
      (inl (Error (compiler_error_message (errorMessages_of errs))),
       {| injector := injector s;
          trace := trace s ++
            [EvLoggerError (lit "[VERIFY-WITH-JSON]") path name v
               (errorMessages_of errs)];
          world := world s |})
  end.
Proof.
  intros Hf Hne Hp. unfold metadata_of_output. rewrite Hf.
  destruct path as [|c r]; [congruence|]. simpl negb. cbv iota.
  rewrite Hp. destruct (errors output); reflexivity.
Qed.

End MetadataResolution.

(** C2, as amended.  When no file path's contract set contains the target
    contract name, [getMetadataFromJsonInput] throws an [Error] whose
    message is [Contract <name> not found in compiler output]; the
    diagnostics of the output are not read and nothing is logged. *)
Theorem missing_contract_reports_name
    `{Collaborators} (v name : jsstring) (input : JsonInput) (s : State)
    (output : CompilerOutput) (w' : World) :
  useCompiler v input (world s) = (inr output, w') ->
  (forall path, ~ contains_contract output path name) ->
  getMetadataFromJsonInput v name input s =
  (inl (Error (lit "Contract " ++ name ++ lit " not found in compiler output")),
   after_call s (EvUseCompiler v input) w').
Proof.
  intros Hc Hno.
  rewrite (getMetadataFromJsonInput_returned _ _ _ _ _ _ Hc).
  unfold metadata_of_output.
  apply find_path_none in Hno. rewrite Hno. reflexivity.
Qed.

Lemma missing_contract_reports_name_witness :
  (forall path, ~ contains_contract failed_output path (lit "Foo")) /\
  getMetadataFromJsonInput (H := demo) (lit "0.8.4") (lit "Foo")
    (compiles_to failed_output) (demo_state None) =
  (inl (Error (lit "Contract Foo not found in compiler output")),
   after_call (demo_state None)
     (EvUseCompiler (H := demo) (lit "0.8.4") (compiles_to failed_output))
     (world (demo_state None))).
Proof.
  assert (forall path, ~ contains_contract failed_output path (lit "Foo"))
    as Hno by (apply find_path_none; reflexivity).
  split; [exact Hno|].
  exact (missing_contract_reports_name (H := demo) (lit "0.8.4") (lit "Foo")
           (compiles_to failed_output) (demo_state None) failed_output
           (world (demo_state None)) eq_refl Hno).
Defined.

(** C2, as stated, fails: with no contracts and the one diagnostic
    [syntax error] of severity [error], the text of the thrown error is not
    the joined diagnostics. *)
Lemma missing_contract_text_counterexample :
  (forall path, ~ contains_contract failed_output path (lit "Foo")) /\
  errorMessages_of [syntax_error] = lit "syntax error" /\
  ~ (exists msg s',
       getMetadataFromJsonInput (H := demo) (lit "0.8.4") (lit "Foo")
         (compiles_to failed_output) (demo_state None) = (inl (Error msg), s') /\
       msg = errorMessages_of [syntax_error]).
Proof.
  split; [apply find_path_none; reflexivity|].
  split; [reflexivity|].
  intros (msg & s' & Hrun & Hmsg).
  vm_compute in Hrun. vm_compute in Hmsg. congruence.
Qed.

(** When exactly one file path's contract set contains the target contract
    name, that path is not the empty string and the contract's metadata is
    a non-empty string, [getMetadataFromJsonInput] ends as [JSON.parse]
    does on the trimmed metadata string: it returns the parsed document, or
    throws the parser's [SyntaxError]. *)
Theorem unique_contract_metadata_parsed
    `{Collaborators} (v name : jsstring) (input : JsonInput) (s : State)
    (output : CompilerOutput) (w' : World) (path m : jsstring) :
  useCompiler v input (world s) = (inr output, w') ->
  has_metadata output path name m ->
  m <> [] ->
  (forall q, contains_contract output q name -> q = path) ->
  path <> [] ->
  getMetadataFromJsonInput v name input s =
  (match JSON_parse (trim m) with
   | Some doc => inr doc
   | None => inl SyntaxError
   end,
   after_call s (EvUseCompiler v input) w').
Proof.
  intros Hc Hm Hne Huniq Hpath.
  rewrite (getMetadataFromJsonInput_returned _ _ _ _ _ _ Hc).
  unfold metadata_of_output.
  destruct (findContractPathFromContractName (contracts output) name)
    as [p|] eqn:Hf.
  - pose proof (Huniq p (find_path_some _ _ _ Hf)) as ->.
    destruct path as [|c r]; [congruence|]. simpl negb. cbv iota.
    assert (present_metadata output (c :: r) name = Some m) as ->
      by (apply present_metadata_some; auto).
    destruct (JSON_parse (trim m)); reflexivity.
  - exfalso.
    exact (proj1 (find_path_none _ _) Hf path
             (has_metadata_contains _ _ _ _ Hm)).
Qed.

Lemma unique_contract_metadata_parsed_witness :
  has_metadata sample_output (lit "A.sol") (lit "Foo") sample_metadata /\
  sample_metadata <> [] /\
  (forall q, contains_contract sample_output q (lit "Foo") -> q = lit "A.sol") /\
  lit "A.sol" <> [] /\
  getMetadataFromJsonInput (H := demo) (lit "0.8.4") (lit "Foo")
    (compiles_to sample_output) (demo_state None) =
  (inr sample_metadata,
   after_call (demo_state None)
     (EvUseCompiler (H := demo) (lit "0.8.4") (compiles_to sample_output))
     (world (demo_state None))).
Proof.
  assert (has_metadata sample_output (lit "A.sol") (lit "Foo") sample_metadata)
    as Hm by (eexists _, _, _; repeat split; reflexivity).
  assert (forall q, contains_contract sample_output q (lit "Foo") ->
                    q = lit "A.sol") as Huniq.
  { intros q (files & set & Hc & Hg & _). injection Hc as <-.
    simpl in Hg. destruct (jsstring_eqb (lit "A.sol") q) eqn:E;
      [|discriminate].
    apply jsstring_eqb_true in E. symmetry. exact E. }
  split; [exact Hm|]. split; [discriminate|]. split; [exact Huniq|].
  split; [discriminate|].
  exact (unique_contract_metadata_parsed (H := demo) (lit "0.8.4") (lit "Foo")
           (compiles_to sample_output) (demo_state None) sample_output
           (world (demo_state None)) (lit "A.sol") sample_metadata
           eq_refl Hm ltac:(discriminate) Huniq ltac:(discriminate)).
Defined.

(** C3.  The code at the input that breaks it: the one file whose contract
    set contains [Foo], with a non-empty metadata string that parses, is
    stored under the file path that is the empty string; the test
    [!contractPath] takes the path found for no path, and the method throws
    [Contract Foo not found in compiler output] instead of returning the
    document. *)
Lemma unique_contract_counterexample :
  has_metadata unnamed_file_output (lit "") (lit "Foo") sample_metadata /\
  sample_metadata <> [] /\
  (forall q, contains_contract unnamed_file_output q (lit "Foo") -> q = lit "") /\
  JSON_parse (Collaborators := demo) (trim sample_metadata)
    = Some sample_metadata /\
  fst (getMetadataFromJsonInput (H := demo) (lit "0.8.4") (lit "Foo")
         (compiles_to unnamed_file_output) (demo_state None))
  = inl (Error (lit "Contract Foo not found in compiler output")).
Proof.
  split; [eexists _, _, _; repeat split; reflexivity|].
  split; [discriminate|].
  split.
  { intros q (files & set & Hc & Hg & _). injection Hc as <-.
    simpl in Hg. destruct (jsstring_eqb (lit "") q) eqn:E; [|discriminate].
    apply jsstring_eqb_true in E. symmetry. exact E. }
  split; reflexivity.
Qed.

(** C5.  A failure of the compiler routine leaves [getMetadataFromJsonInput]
    as the very value that was thrown; nothing else is called or logged. *)
Theorem compiler_failure_propagates
    `{Collaborators} (v name : jsstring) (input : JsonInput) (s : State)
    (e : JsError) (w' : World) :
  useCompiler v input (world s) = (inl e, w') ->
  getMetadataFromJsonInput v name input s =
  (inl e, after_call s (EvUseCompiler v input) w').
Proof.
  intros Hc. unfold getMetadataFromJsonInput, bind, call. rewrite Hc.
  reflexivity.
Qed.

Lemma compiler_failure_propagates_witness :
  getMetadataFromJsonInput (H := demo) (lit "9.9.9") (lit "Foo")
    (inl (Thrown (lit "unknown compiler version"))) (demo_state None) =
  (inl (Thrown (lit "unknown compiler version")),
   after_call (demo_state None)
     (EvUseCompiler (H := demo) (lit "9.9.9")
        (inl (Thrown (lit "unknown compiler version"))))
     (world (demo_state None))).
Proof.
  exact (compiler_failure_propagates (H := demo) (lit "9.9.9") (lit "Foo")
           (inl (Thrown (lit "unknown compiler version"))) (demo_state None)
           (Thrown (lit "unknown compiler version"))
           (world (demo_state None)) eq_refl).
Defined.

(** C8, as amended.  When the output holds no non-empty metadata string for
    the target contract, none of its diagnostics has severity [error], and
    no file path holding the contract is the empty string, the method
    throws an [Error] and does not return: for a contract some file path
    holds, the message is [Compiler error:], a line feed, a space, and the
    empty aggregated text; for a contract no file path holds, it is the
    not-found message of the earlier guard, which carries no aggregated
    text. *)
Theorem missing_metadata_without_errors_throws
    `{Collaborators} (v name : jsstring) (input : JsonInput) (s : State)
    (output : CompilerOutput) (w' : World) (errs : list Diagnostic) :
  useCompiler v input (world s) = (inr output, w') ->
  (forall path m, has_metadata output path name m -> m = []) ->
  (forall path, contains_contract output path name -> path <> []) ->
  errors output = Some errs ->
  List.filter is_error errs = [] ->
  exists msg s',
    getMetadataFromJsonInput v name input s = (inl (Error msg), s') /\
    ((exists path, contains_contract output path name) ->
     msg = lit "Compiler error:" ++ LF ++ lit " " ++ lit "") /\
    ((forall path, ~ contains_contract output path name) ->
     msg = lit "Contract " ++ name ++ lit " not found in compiler output").
Proof.
  intros Hc Hmiss Hnonempty Herrs Hfilter.
  rewrite (getMetadataFromJsonInput_returned _ _ _ _ _ _ Hc).
  destruct (findContractPathFromContractName (contracts output) name)
    as [p|] eqn:Hf.
  - pose proof (find_path_some _ _ _ Hf) as Hp.
    pose proof (Hnonempty p Hp) as Hne.
    assert (present_metadata output p name = None) as Hnone
      by (apply present_metadata_none; intros m; apply Hmiss).
    rewrite (metadata_of_output_missing v name output _ p Hf Hne Hnone).
    rewrite Herrs. unfold errorMessages_of. rewrite Hfilter. simpl join.
    eexists _, _. split; [reflexivity|]. split.
    + intros _. reflexivity.
    + intros Hno. exfalso. exact (Hno p Hp).
  - unfold metadata_of_output. rewrite Hf.
    eexists _, _. split; [reflexivity|]. split.
    + intros [path Hp]. exfalso.
      exact (proj1 (find_path_none _ _) Hf path Hp).
    + intros _. reflexivity.
Qed.

Lemma missing_metadata_without_errors_throws_witness :
  (forall path m,
     has_metadata no_metadata_output path (lit "Foo") m -> m = []) /\
  (forall path,
     contains_contract no_metadata_output path (lit "Foo") -> path <> []) /\
  fst (getMetadataFromJsonInput (H := demo) (lit "0.8.4") (lit "Foo")
         (compiles_to no_metadata_output) (demo_state None))
  = inl (Error (lit "Compiler error:" ++ LF ++ lit " ")).
Proof.
  assert (forall path m,
            has_metadata no_metadata_output path (lit "Foo") m -> m = [])
    as Hmiss.
  { intros path m Hm.
    assert (present_metadata no_metadata_output path (lit "Foo") = None)
      as Hn.
    { unfold present_metadata. simpl.
      destruct (jsstring_eqb (lit "A.sol") path); reflexivity. }
    exact (proj1 (present_metadata_none _ _ _) Hn m Hm). }
  assert (forall path,
            contains_contract no_metadata_output path (lit "Foo") ->
            path <> []) as Hnonempty.
  { intros path (files & set & Hc & Hg & _). injection Hc as <-.
    simpl in Hg. destruct (jsstring_eqb (lit "A.sol") path) eqn:E;
      [|discriminate].
    apply jsstring_eqb_true in E. subst path. discriminate. }
  assert (exists path, contains_contract no_metadata_output path (lit "Foo"))
    as Hlocated.
  { exists (lit "A.sol"). eexists _, _. repeat split; reflexivity. }
  split; [exact Hmiss|]. split; [exact Hnonempty|].
  destruct (missing_metadata_without_errors_throws (H := demo)
              (lit "0.8.4") (lit "Foo") (compiles_to no_metadata_output)
              (demo_state None) no_metadata_output (world (demo_state None))
              _ eq_refl Hmiss Hnonempty eq_refl eq_refl)
    as (msg & s' & Hrun & Hfound & _).
  rewrite Hrun. simpl. rewrite (Hfound Hlocated). reflexivity.
Defined.

(** C8, as stated, fails: in the output of the spec's scenarios the
    contract [Bar] has no metadata (it is not there at all) and there is no
    diagnostic of severity [error], yet the error thrown does not carry the
    empty aggregated text: it is the not-found message. *)
Lemma missing_metadata_text_counterexample :
  (forall path m, has_metadata sample_output path (lit "Bar") m -> m = []) /\
  (exists errs,
     errors sample_output = Some errs /\ List.filter is_error errs = []) /\
  fst (getMetadataFromJsonInput (H := demo) (lit "0.8.4") (lit "Bar")
         (compiles_to sample_output) (demo_state None))
  = inl (Error (lit "Contract Bar not found in compiler output")) /\
  lit "Contract Bar not found in compiler output"
  <> compiler_error_message (lit "").
Proof.
  split.
  { intros path m Hm.
    assert (present_metadata sample_output path (lit "Bar") = None) as Hn.
    { unfold present_metadata. simpl.
      destruct (jsstring_eqb (lit "A.sol") path); reflexivity. }
    exact (proj1 (present_metadata_none _ _ _) Hn m Hm). }
  split; [exists []; split; reflexivity|].
  split; [reflexivity|]. vm_compute. discriminate.
Qed.

(** C10.  When every metadata string the output holds for the target
    contract is empty or made of whitespace only (or there is none), the
    method throws, whatever the diagnostics member is, absent included; it
    does not return a document. *)
Theorem no_usable_metadata_throws
    `{Collaborators} (v name : jsstring) (input : JsonInput) (s : State)
    (output : CompilerOutput) (w' : World) :
  useCompiler v input (world s) = (inr output, w') ->
  (forall path m,
     has_metadata output path name m -> forallb is_whitespace m = true) ->
  exists e s', getMetadataFromJsonInput v name input s = (inl e, s').
Proof.
  intros Hc Hblank.
  rewrite (getMetadataFromJsonInput_returned _ _ _ _ _ _ Hc).
  unfold metadata_of_output.
  destruct (findContractPathFromContractName (contracts output) name)
    as [p|] eqn:Hf; [|eexists _, _; reflexivity].
  destruct (negb (truthy_string p)); [eexists _, _; reflexivity|].
  destruct (present_metadata output p name) as [m|] eqn:Hp.
  - apply present_metadata_some in Hp as [Hm _].
    rewrite (trim_whitespace m (Hblank p m Hm)), JSON_parse_empty.
    eexists _, _; reflexivity.
  - destruct (errors output); eexists _, _; reflexivity.
Qed.

Lemma no_usable_metadata_throws_witness :
  (forall path m,
     has_metadata blank_metadata_output path (lit "Foo") m ->
     forallb is_whitespace m = true) /\
  exists e s',
    getMetadataFromJsonInput (H := demo) (lit "0.8.4") (lit "Foo")
      (compiles_to blank_metadata_output) (demo_state None) = (inl e, s').
Proof.
  assert (forall path m,
            has_metadata blank_metadata_output path (lit "Foo") m ->
            forallb is_whitespace m = true) as Hblank.
  { intros path m (files & set & art & Hc & Hg & Ha & Hm).
    injection Hc as <-. simpl in Hg.
    destruct (jsstring_eqb (lit "A.sol") path); [|discriminate].
    injection Hg as <-. simpl in Ha. injection Ha as <-.
    simpl in Hm. injection Hm as <-. reflexivity. }
  split; [exact Hblank|].
  exact (no_usable_metadata_throws (H := demo) (lit "0.8.4") (lit "Foo")
           (compiles_to blank_metadata_output) (demo_state None)
           blank_metadata_output (world (demo_state None)) eq_refl Hblank).
Defined.

(** What the two edge cases of C10 throw. *)
Example blank_metadata_throws_SyntaxError :
  fst (getMetadataFromJsonInput (H := demo) (lit "0.8.4") (lit "Foo")
         (compiles_to blank_metadata_output) (demo_state None))
  = inl SyntaxError.
Proof. vm_compute. reflexivity. Qed.

Example absent_diagnostics_throw_TypeError :
  fst (getMetadataFromJsonInput (H := demo) (lit "0.8.4") (lit "Foo")
         (compiles_to
            {| contracts :=
                 Some [(lit "A.sol", [(lit "Foo", {| metadata := None |})])];
               errors := None |})
         (demo_state None))
  = inl TypeError.
Proof. vm_compute. reflexivity. Qed.

(** ** Lookups by address *)

(** C4.  When the repository store throws during [findByAddress] or
    [findAllByAddress], the method returns the empty array; the store was
    called once and one [info] entry carrying the address was logged. *)
Theorem lookup_failure_is_swallowed
    `{Collaborators} (k : Lookup) (address chain : jsstring) (s : State)
    (e : JsError) (w' : World) :
  store_lookup k address chain (world s) = (inl e, w') ->
  lookup_by k address chain s =
  (inr [],
   {| injector := injector s;
      trace := trace s ++
        [store_event k address chain;
         EvLoggerInfo (lit "[POST:VERIFICATION_BY_ADDRESS_FAILED]") address
           (lit "Could not find file in repository")];
      world := w' |}).
Proof.
  intros Hs.
  destruct k; simpl in *;
    unfold findByAddress, findAllByAddress, bind, try_catch, call, record, ret;
    rewrite Hs; simpl; rewrite <- app_assoc; reflexivity.
Qed.

Lemma lookup_failure_is_swallowed_witness :
  fst (lookup_by (H := demo) ByAddress (lit "0xabc") (lit "1")
         (demo_state None)) = inr [] /\
  fst (lookup_by (H := demo) AllByAddress (lit "0xabc") (lit "1")
         (demo_state None)) = inr [].
Proof.
  split.
  - exact (f_equal fst
             (lookup_failure_is_swallowed (H := demo) ByAddress (lit "0xabc")
                (lit "1") (demo_state None) (Error (lit "ENOENT"))
                (world (demo_state None)) eq_refl)).
  - exact (f_equal fst
             (lookup_failure_is_swallowed (H := demo) AllByAddress
                (lit "0xabc") (lit "1") (demo_state None)
                (Error (lit "ENOENT")) (world (demo_state None)) eq_refl)).
Defined.

(** Whatever the store does, the two lookups return. *)
Lemma lookup_never_throws
    `{Collaborators} (k : Lookup) (address chain : jsstring) (s : State) :
  exists matches s', lookup_by k address chain s = (inr matches, s').
Proof.
  destruct k; simpl;
    unfold findByAddress, findAllByAddress, bind, try_catch, call, record, ret.
  - destruct (fileService_findByAddress address chain (world s))
      as [[e|ms] w]; eexists _, _; reflexivity.
  - destruct (fileService_findAllByAddress address chain (world s))
      as [[e|ms] w]; eexists _, _; reflexivity.
Qed.

(** ** The engine handle and the delegated operations *)

Section Delegation.

Context `{Collaborators}.

Lemma constructions_app (a b : list Event) :
  constructions (a ++ b) = (constructions a + constructions b)%nat.
Proof.
  unfold constructions. rewrite List.filter_app, length_app. reflexivity.
Qed.

(** An engine call is one recorded call on that engine and leaves
    [this.injector] alone. *)
Lemma engine_call_spec (engine : Injector) (op : EngineOp) (s : State) :
  exists ev r w,
    engine_call engine op s = (r, after_call s ev w) /\
    engine_of_event ev = Some engine /\
    is_construction ev = false.
Proof.
  destruct op; simpl; unfold fmap, bind, call, ret, after_call.
  - destruct (Injector_inject engine injectorInput (world s)) as [[e|m] w];
      eexists _, _, _; repeat split.
  - destruct (Injector_verifyCreate2 engine contract deployerAddress salt
                constructorArgs create2Address (world s)) as [[e|m] w];
      eexists _, _, _; repeat split.
  - destruct (Injector_recompile engine contract (world s)) as [[e|m] w];
      eexists _, _, _; repeat split.
  - destruct (Injector_getBytecode engine address chainId (world s))
      as [[e|m] w]; eexists _, _, _; repeat split.
Qed.

Lemma createInjector_spec (s : State) :
  exists r w,
    createInjector s =
    (r, after_call s (EvCreateAsync (injectorConfig (world s))) w).
Proof.
  unfold createInjector, call, after_call.
  destruct (Injector_createAsync (injectorConfig (world s)) (world s))
    as [r w].
  eexists _, _. reflexivity.
Qed.

Lemma ensureInjector_ready (engine : Injector) (s : State) :
  injector s = Some engine -> ensureInjector s = (inr engine, s).
Proof. intros Hi. unfold ensureInjector. rewrite Hi. reflexivity. Qed.

(** A delegated operation is [ensureInjector] followed by the engine
    call. *)
Lemma delegated_ensured (engine : Injector) (op : EngineOp) (s s1 : State) :
  ensureInjector s = (inr engine, s1) ->
  delegated op s = engine_call engine op s1.
Proof.
  intros He.
  destruct op; simpl;
    unfold fmap, inject, verifyCreate2, recompile, getBytecode, bind;
    rewrite He; reflexivity.
Qed.

Lemma delegated_not_ensured (e : JsError) (op : EngineOp) (s s1 : State) :
  ensureInjector s = (inl e, s1) ->
  delegated op s = (inl e, s1).
Proof.
  intros He.
  destruct op; simpl;
    unfold fmap, inject, verifyCreate2, recompile, getBytecode, bind;
    rewrite He; reflexivity.
Qed.

(** With the engine in place a delegated operation is the engine call. *)
Lemma delegated_ready (engine : Injector) (op : EngineOp) (s : State) :
  injector s = Some engine -> delegated op s = engine_call engine op s.
Proof.
  intros Hi. apply delegated_ensured, ensureInjector_ready, Hi.
Qed.

(** A failed construction leaves the method as it was thrown, and
    [this.injector] stays unset: the next call constructs again. *)
Lemma construction_failure_propagates (op : EngineOp) (s : State)
    (e : JsError) (w' : World) :
  injector s = None ->
  Injector_createAsync (injectorConfig (world s)) (world s) = (inl e, w') ->
  delegated op s =
  (inl e, after_call s (EvCreateAsync (injectorConfig (world s))) w') /\
  injector (snd (delegated op s)) = None.
Proof.
  intros Hi Hc.
  assert (ensureInjector s =
          (inl e, after_call s (EvCreateAsync (injectorConfig (world s))) w'))
    as He.
  { unfold ensureInjector, bind, createInjector, call, after_call.
    rewrite Hi, Hc. reflexivity. }
  assert (delegated op s =
          (inl e, after_call s (EvCreateAsync (injectorConfig (world s))) w'))
    as Hd.
  { destruct op; simpl;
      unfold fmap, inject, verifyCreate2, recompile, getBytecode, bind;
      rewrite He; reflexivity. }
  split; [exact Hd|]. rewrite Hd. simpl. exact Hi.
Qed.

End Delegation.

Section Reuse.

Context `{Collaborators}.

Lemma constructions_engine_events (engine : Injector) (evs : list Event) :
  Forall (fun ev => engine_of_event ev = Some engine) evs ->
  constructions evs = 0%nat.
Proof.
  induction 1 as [|ev evs Hev _ IH]; [reflexivity|].
  unfold constructions in *. simpl.
  destruct ev; simpl in *; try discriminate; exact IH.
Qed.

(** One call with the engine in place. *)
Lemma delegated_reuses (engine : Injector) (op : EngineOp) (s : State) :
  injector s = Some engine ->
  exists ev,
    trace (snd (delegated op s)) = trace s ++ [ev] /\
    engine_of_event ev = Some engine /\
    injector (snd (delegated op s)) = Some engine.
Proof.
  intros Hi. rewrite (delegated_ready engine op s Hi).
  destruct (engine_call_spec engine op s) as (ev & r & w & -> & He & _).
  exists ev. simpl. auto.
Qed.

Lemma run_sequential_reuses (engine : Injector) (ops : list EngineOp) :
  forall s,
    injector s = Some engine ->
    exists added,
      trace (run_sequential ops s) = trace s ++ added /\
      length added = length ops /\
      Forall (fun ev => engine_of_event ev = Some engine) added /\
      injector (run_sequential ops s) = Some engine.
Proof.
  induction ops as [|op ops IH]; intros s Hi.
  - exists []. simpl. rewrite app_nil_r. auto.
  - destruct (delegated_reuses engine op s Hi) as (ev & Ht & He & Hi').
    destruct (IH _ Hi') as (added & Ht' & Hl & Hall & Hi'').
    exists (ev :: added). unfold run_sequential in *. simpl.
    rewrite Ht', Ht, <- app_assoc. simpl.
    repeat split; auto.
Qed.

End Reuse.

(** C6.  Once [this.injector] holds an engine, any sequence of delegated
    calls made one after the other constructs nothing: each call adds
    exactly one event to the trace, a call on that same engine, and the
    field still holds that engine afterwards. *)
Theorem engine_reused_after_construction
    `{Collaborators} (engine : Injector) (ops : list EngineOp) (s : State) :
  injector s = Some engine ->
  injector (run_sequential ops s) = Some engine /\
  constructions (trace (run_sequential ops s)) = constructions (trace s) /\
  exists added,
    trace (run_sequential ops s) = trace s ++ added /\
    length added = length ops /\
    Forall (fun ev => engine_of_event ev = Some engine) added.
Proof.
  intros Hi.
  destruct (run_sequential_reuses engine ops s Hi)
    as (added & Ht & Hl & Hall & Hi').
  split; [exact Hi'|]. split.
  - rewrite Ht, constructions_app,
      (constructions_engine_events engine added Hall). lia.
  - exists added. auto.
Qed.

(** The first call constructs engine 0; three more calls follow. *)
Lemma engine_reused_after_construction_witness :
  let s1 :=
    snd (delegated (H := demo) (OpInject (H := demo) 7%nat)
           (demo_state None)) in
  let later := [OpGetBytecode (H := demo) (lit "0xabc") (lit "1");
                OpRecompile (H := demo) 3%nat; OpInject (H := demo) 5%nat] in
  injector s1 = Some (engine_no 0) /\
  injector (run_sequential later s1) = Some (engine_no 0) /\
  constructions (trace (run_sequential later s1)) = constructions (trace s1) /\
  exists added,
    trace (run_sequential later s1) = trace s1 ++ added /\
    length added = length later /\
    Forall (fun ev => engine_of_event ev = Some (engine_no 0)) added.
Proof.
  intros s1 later. split; [reflexivity|].
  exact (engine_reused_after_construction (H := demo) (engine_no 0) later s1
           eq_refl).
Defined.

(** C7.  Whatever engine [ensureInjector] yields, each of the four methods
    makes exactly one call on it, with the arguments it was given, and ends
    with the outcome of that call, value or exception, as it is. *)
Theorem delegation_forwards_unchanged
    `{Collaborators} (s s1 : State) (engine : Injector) :
  ensureInjector s = (inr engine, s1) ->
  (forall i,
     inject i s =
     forwarded s1 (EvInject engine i) (Injector_inject engine i (world s1))) /\
  (forall c d sa a c2,
     verifyCreate2 c d sa a c2 s =
     forwarded s1 (EvVerifyCreate2 engine c d sa a c2)
       (Injector_verifyCreate2 engine c d sa a c2 (world s1))) /\
  (forall c,
     recompile c s =
     forwarded s1 (EvRecompile engine c)
       (Injector_recompile engine c (world s1))) /\
  (forall a c,
     getBytecode a c s =
     forwarded s1 (EvGetBytecode engine a c)
       (Injector_getBytecode engine a c (world s1))).
Proof.
  intros He.
  repeat split; intros;
    unfold inject, verifyCreate2, recompile, getBytecode, bind;
    rewrite He; unfold call, forwarded, after_call;
    match goal with
    | |- (let '(_, _) := ?x in _) = _ => destruct x as [r w]
    end; reflexivity.
Qed.

Lemma delegation_forwards_unchanged_witness :
  fst (inject (H := demo) 7%nat (demo_state None))
  = inr (7%nat : @Match demo) /\
  fst (getBytecode (H := demo) (lit "0xabc") (lit "1") (demo_state None))
  = inr (lit "0xabc").
Proof.
  pose proof (delegation_forwards_unchanged (H := demo) (demo_state None)
                (snd (ensureInjector (H := demo) (demo_state None)))
                (engine_no 0) eq_refl) as (Hinject & _ & _ & Hbytecode).
  split.
  - exact (f_equal fst (Hinject 7%nat)).
  - exact (f_equal fst (Hbytecode (lit "0xabc") (lit "1"))).
Defined.

(** ** The network timeout *)

Lemma web3timeout_of_zero (text : jsstring) :
  parseInt text = Some 0%Z -> web3timeout_of (Some text) = None.
Proof.
  intros Hp. unfold web3timeout_of.
  destruct text as [|c r]; simpl truthy_string; cbv iota.
  - reflexivity.
  - rewrite Hp. reflexivity.
Qed.

(** The first call of a delegated operation makes one construction call,
    with the options read from the world at that moment. *)
Lemma ensureInjector_first_trace `{Collaborators} (s : State) :
  injector s = None ->
  trace (snd (ensureInjector s)) =
  trace s ++ [EvCreateAsync (injectorConfig (world s))].
Proof.
  intros Hi. unfold ensureInjector, bind, createInjector, call, set_injector.
  rewrite Hi.
  destruct (Injector_createAsync (injectorConfig (world s)) (world s))
    as [[e|engine] w]; reflexivity.
Qed.

(** C9.  When [WEB3_TIMEOUT] is a text that [parseInt] reads as 0, the
    options of the construction call carry no network timeout; when it is
    the text [15x], they carry the timeout 15. *)
Theorem zero_timeout_is_absent
    `{Collaborators} (s : State) (text : jsstring) :
  injector s = None ->
  env_WEB3_TIMEOUT (world s) = Some text ->
  (parseInt text = Some 0%Z ->
   trace (snd (ensureInjector s)) =
   trace s ++ [EvCreateAsync {| cfg_repositoryPath := repositoryPath;
                                cfg_web3timeout := None |}]) /\
  (text = lit "15x" ->
   trace (snd (ensureInjector s)) =
   trace s ++ [EvCreateAsync {| cfg_repositoryPath := repositoryPath;
                                cfg_web3timeout := Some 15%Z |}]).
Proof.
  intros Hi Henv.
  rewrite (ensureInjector_first_trace s Hi).
  unfold injectorConfig. rewrite Henv. split.
  - intros Hp. rewrite (web3timeout_of_zero text Hp). reflexivity.
  - intros ->. reflexivity.
Qed.

Lemma zero_timeout_is_absent_witness :
  parseInt (lit "0") = Some 0%Z /\
  trace (snd (ensureInjector (H := demo) (demo_state (Some (lit "0"))))) =
  [EvCreateAsync (H := demo)
     {| cfg_repositoryPath := lit "/repository"; cfg_web3timeout := None |}] /\
  trace (snd (ensureInjector (H := demo) (demo_state (Some (lit "15x"))))) =
  [EvCreateAsync (H := demo)
     {| cfg_repositoryPath := lit "/repository";
        cfg_web3timeout := Some 15%Z |}].
Proof.
  split; [reflexivity|]. split.
  - exact (proj1 (zero_timeout_is_absent (H := demo)
                    (demo_state (Some (lit "0"))) (lit "0") eq_refl eq_refl)
             eq_refl).
  - exact (proj2 (zero_timeout_is_absent (H := demo)
                    (demo_state (Some (lit "15x"))) (lit "15x") eq_refl
                    eq_refl)
             eq_refl).
Defined.

(** Other texts that are read as zero, and the unset variable. *)
Example timeouts_read_as_absent :
  web3timeout_of (Some (lit "-0")) = None /\
  web3timeout_of (Some (lit " 000")) = None /\
  web3timeout_of (Some (lit "0x0")) = None /\
  web3timeout_of (Some (lit "0.5")) = None /\
  web3timeout_of (Some (lit "abc")) = None /\
  web3timeout_of (Some (lit "")) = None /\
  web3timeout_of None = None /\
  web3timeout_of (Some (lit "3000")) = Some 3000%Z.
Proof. repeat split; reflexivity. Qed.

(** ** Calls in flight at the same time *)

Section Interleaving.

Context `{Collaborators}.

(** A call made while [this.injector] is unset starts a construction of
    its own, suspends, and leaves the field unset. *)
Lemma invoke_unset (sys : Sys) (op : EngineOp) :
  injector (svc sys) = None ->
  injector (svc (invoke sys op)) = None /\
  constructions (trace (svc (invoke sys op))) =
    Datatypes.S (constructions (trace (svc sys))) /\
  exists pending, tasks (invoke sys op) = tasks sys ++ [Suspended op pending].
Proof.
  intros Hi. unfold invoke. rewrite Hi.
  destruct (createInjector_spec (svc sys)) as (r & w & ->). simpl.
  split; [exact Hi|]. split.
  - rewrite constructions_app. unfold constructions at 2. simpl. lia.
  - exists r. reflexivity.
Qed.


(** A call that is invoked and resumed before anything else happens is the
    sequential call. *)
Lemma invoke_then_resume (sys : Sys) (op : EngineOp) :
  svc (resume (invoke sys op) (length (tasks sys))) =
  snd (delegated op (svc sys)).
Proof.
  unfold invoke, resume.
  destruct (injector (svc sys)) as [engine|] eqn:Hi.
  - rewrite (delegated_ready engine op _ Hi).
    destruct (engine_call engine op (svc sys)) as [r s']. simpl.
    rewrite lookup_app_r, Nat.sub_diag by lia. reflexivity.
  - destruct (createInjector (svc sys)) as [[e|created] s'] eqn:Hc; simpl;
      rewrite lookup_app_r, Nat.sub_diag by lia; simpl.
    + rewrite (delegated_not_ensured e op (svc sys) s'); [reflexivity|].
      unfold ensureInjector, bind. rewrite Hi, Hc. reflexivity.
    + rewrite (delegated_ensured created op (svc sys)
                 {| injector := Some created; trace := trace s';
                    world := world s' |}).
      * destruct (engine_call created op _) as [r s2]. reflexivity.
      * unfold ensureInjector, bind. rewrite Hi, Hc. reflexivity.
Qed.

End Interleaving.


(** The same two calls made one after the other construct one engine. *)
Example sequential_first_calls_construct_once :
  let s :=
    run_sequential
      [OpInject (H := demo) 7%nat; OpInject (H := demo) 7%nat]
      (demo_state None) in
  constructions (trace s) = 1%nat /\ injector s = Some (engine_no 0).
Proof. split; reflexivity. Qed.

(** ** Further properties of metadata resolution *)

Lemma compiler_throw_leaves_method
    `{Collaborators} (v name : jsstring) (input : JsonInput) (s : State)
    (e : JsError) (w' : World) :
  useCompiler v input (world s) = (inl e, w') ->
  getMetadataFromJsonInput v name input s =
  (inl e, after_call s (EvUseCompiler v input) w').
Proof.
  intros Hc. unfold getMetadataFromJsonInput, bind, call. rewrite Hc.
  reflexivity.
Qed.

(** X1.  When the path search yields a non-empty file path and the output
    holds no non-empty metadata string for the contract under that path,
    while the diagnostics member is there, the method logs one error entry
    (path, name, version, text) and throws an [Error] whose message is
    [Compiler error:], a line feed, a space, and the formatted messages of
    the diagnostics of severity [error] joined by line feeds. *)
Theorem located_without_metadata_reports_errors
    `{Collaborators} (v name : jsstring) (input : JsonInput) (s : State)
    (output : CompilerOutput) (w' : World) (path : jsstring)
    (errs : list Diagnostic) :
  useCompiler v input (world s) = (inr output, w') ->
  findContractPathFromContractName (contracts output) name = Some path ->
  path <> [] ->
  (forall m, has_metadata output path name m -> m = []) ->
  errors output = Some errs ->
  let text :=
    join LF (List.map formattedMessage (List.filter is_error errs)) in
  getMetadataFromJsonInput v name input s =
  (inl (Error (lit "Compiler error:" ++ LF ++ lit " " ++ text)),
   {| injector := injector s;
      trace := trace s ++
        [EvUseCompiler v input;
         EvLoggerError (lit "[VERIFY-WITH-JSON]") path name v text];
      world := w' |}).
Proof.
  intros Hc Hf Hne Hmiss Herrs text.
  rewrite (getMetadataFromJsonInput_returned _ _ _ _ _ _ Hc).
  rewrite (metadata_of_output_missing v name output _ path Hf Hne
             (proj2 (present_metadata_none _ _ _) Hmiss)).
  rewrite Herrs. simpl. rewrite <- app_assoc. reflexivity.
Qed.

Lemma located_without_metadata_reports_errors_witness :
  fst (getMetadataFromJsonInput (H := demo) (lit "0.8.4") (lit "Foo")
         (compiles_to errors_output) (demo_state None))
  = inl (Error (lit "Compiler error:" ++ LF ++ lit " syntax error")).
Proof.
  assert (forall m,
            has_metadata errors_output (lit "A.sol") (lit "Foo") m -> m = [])
    as Hmiss
    by (apply present_metadata_none; reflexivity).
  exact (f_equal fst
           (located_without_metadata_reports_errors (H := demo)
              (lit "0.8.4") (lit "Foo") (compiles_to errors_output)
              (demo_state None) errors_output (world (demo_state None))
              (lit "A.sol") [unused_warning; syntax_error]
              eq_refl eq_refl ltac:(discriminate) Hmiss eq_refl)).
Defined.

(** X2.  In the same situation but with no diagnostics member in the
    output, the method throws a [TypeError] (the read of [filter] on
    [undefined]) and logs nothing. *)
Theorem located_without_metadata_or_diagnostics
    `{Collaborators} (v name : jsstring) (input : JsonInput) (s : State)
    (output : CompilerOutput) (w' : World) (path : jsstring) :
  useCompiler v input (world s) = (inr output, w') ->
  findContractPathFromContractName (contracts output) name = Some path ->
  path <> [] ->
  (forall m, has_metadata output path name m -> m = []) ->
  errors output = None ->
  getMetadataFromJsonInput v name input s =
  (inl TypeError, after_call s (EvUseCompiler v input) w').
Proof.
  intros Hc Hf Hne Hmiss Herrs.
  rewrite (getMetadataFromJsonInput_returned _ _ _ _ _ _ Hc).
  rewrite (metadata_of_output_missing v name output _ path Hf Hne
             (proj2 (present_metadata_none _ _ _) Hmiss)).
  rewrite Herrs. reflexivity.
Qed.

Lemma located_without_metadata_or_diagnostics_witness :
  getMetadataFromJsonInput (H := demo) (lit "0.8.4") (lit "Foo")
    (compiles_to no_diagnostics_output) (demo_state None) =
  (inl TypeError,
   after_call (demo_state None)
     (EvUseCompiler (H := demo) (lit "0.8.4")
        (compiles_to no_diagnostics_output))
     (world (demo_state None))).
Proof.
  assert (forall m,
            has_metadata no_diagnostics_output (lit "A.sol") (lit "Foo") m ->
            m = []) as Hmiss
    by (apply present_metadata_none; reflexivity).
  exact (located_without_metadata_or_diagnostics (H := demo)
           (lit "0.8.4") (lit "Foo") (compiles_to no_diagnostics_output)
           (demo_state None) no_diagnostics_output (world (demo_state None))
           (lit "A.sol") eq_refl eq_refl ltac:(discriminate) Hmiss eq_refl).
Defined.

(** X3.  A document is returned only as the parse of a metadata string of
    the output: the compiler returned, the path search yielded a non-empty
    path, the contract's artifact under that path carries a non-empty
    metadata string whose trimmed text parses to the document, and nothing
    was logged. *)
Theorem returned_metadata_comes_from_output
    `{Collaborators} (v name : jsstring) (input : JsonInput) (s s' : State)
    (doc : Metadata) :
  getMetadataFromJsonInput v name input s = (inr doc, s') ->
  exists output w' path m,
    useCompiler v input (world s) = (inr output, w') /\
    findContractPathFromContractName (contracts output) name = Some path /\
    path <> [] /\
    has_metadata output path name m /\
    m <> [] /\
    JSON_parse (trim m) = Some doc /\
    s' = after_call s (EvUseCompiler v input) w'.
Proof.
  intros Hrun.
  destruct (useCompiler v input (world s)) as [[e|output] w'] eqn:Hc.
  - rewrite (compiler_throw_leaves_method v name input s e w' Hc) in Hrun.
    discriminate.
  - rewrite (getMetadataFromJsonInput_returned _ _ _ _ _ _ Hc) in Hrun.
    unfold metadata_of_output in Hrun.
    destruct (findContractPathFromContractName (contracts output) name)
      as [path|] eqn:Hf; [|discriminate].
    destruct path as [|c r]; [discriminate|]. simpl negb in Hrun.
    cbv iota in Hrun.
    destruct (present_metadata output (c :: r) name) as [m|] eqn:Hp.
    + apply present_metadata_some in Hp as [Hm Hne].
      destruct (JSON_parse (trim m)) as [d|] eqn:Hj; [|discriminate].
      injection Hrun as <- <-.
      exists output, w', (c :: r), m. repeat split; auto.
    + destruct (errors output); discriminate.
Qed.

Lemma returned_metadata_comes_from_output_witness :
  exists output w' path m,
    useCompiler (Collaborators := demo) (lit "0.8.4")
      (compiles_to sample_output) (world (demo_state None))
    = (inr output, w') /\
    findContractPathFromContractName (contracts output) (lit "Foo")
    = Some path /\
    path <> [] /\
    has_metadata output path (lit "Foo") m /\
    m <> [] /\
    JSON_parse (Collaborators := demo) (trim m) = Some sample_metadata /\
    snd (getMetadataFromJsonInput (H := demo) (lit "0.8.4") (lit "Foo")
           (compiles_to sample_output) (demo_state None))
    = after_call (demo_state None)
        (EvUseCompiler (H := demo) (lit "0.8.4") (compiles_to sample_output))
        w'.
Proof.
  exact (returned_metadata_comes_from_output (H := demo)
           (lit "0.8.4") (lit "Foo") (compiles_to sample_output)
           (demo_state None)
           (snd (getMetadataFromJsonInput (H := demo) (lit "0.8.4")
                   (lit "Foo") (compiles_to sample_output) (demo_state None)))
           sample_metadata eq_refl).
Defined.

(** X4.  Whatever its outcome, [getMetadataFromJsonInput] leaves
    [this.injector] as it was and calls the compiler exactly once; the only
    other call it can make is one [logger.error], and when it makes it, it
    throws the [Compiler error:] message carrying the logged text. *)
Theorem metadata_resolution_calls
    `{Collaborators} (v name : jsstring) (input : JsonInput) (s : State) :
  let r := fst (getMetadataFromJsonInput v name input s) in
  let s' := snd (getMetadataFromJsonInput v name input s) in
  injector s' = injector s /\
  (trace s' = trace s ++ [EvUseCompiler v input] \/
   exists path text,
     trace s' = trace s ++
       [EvUseCompiler v input;
        EvLoggerError (lit "[VERIFY-WITH-JSON]") path name v text] /\
     r = inl (Error (lit "Compiler error:" ++ LF ++ lit " " ++ text))).
Proof.
  intros r s'. subst r s'.
  destruct (useCompiler v input (world s)) as [[e|output] w'] eqn:Hc.
  - rewrite (compiler_throw_leaves_method v name input s e w' Hc).
    simpl. split; [reflexivity|left; reflexivity].
  - rewrite (getMetadataFromJsonInput_returned _ _ _ _ _ _ Hc).
    unfold metadata_of_output.
    destruct (findContractPathFromContractName (contracts output) name)
      as [path|] eqn:Hf; [|simpl; split; [reflexivity|left; reflexivity]].
    destruct (negb (truthy_string path));
      [simpl; split; [reflexivity|left; reflexivity]|].
    destruct (present_metadata output path name) as [m|].
    + destruct (JSON_parse (trim m));
        simpl; split; try reflexivity; left; reflexivity.
    + destruct (errors output) as [errs|].
      * simpl. split; [reflexivity|]. right.
        exists path, (errorMessages_of errs).
        rewrite <- app_assoc. split; reflexivity.
      * simpl. split; [reflexivity|left; reflexivity].
Qed.

(** ** Further properties of the lookups *)

(** X5.  When the repository store returns, [findByAddress] and
    [findAllByAddress] return its matches as they are, after that one call
    on the store; nothing is logged. *)
Theorem lookup_success_is_passed_through
    `{Collaborators} (k : Lookup) (address chain : jsstring) (s : State)
    (found : list Match) (w' : World) :
  store_lookup k address chain (world s) = (inr found, w') ->
  lookup_by k address chain s =
  (inr found,
   {| injector := injector s;
      trace := trace s ++ [store_event k address chain];
      world := w' |}).
Proof.
  intros Hs.
  destruct k; simpl in *;
    unfold findByAddress, findAllByAddress, bind, try_catch, call, ret;
    rewrite Hs; reflexivity.
Qed.

Lemma lookup_success_is_passed_through_witness :
  fst (lookup_by (H := lab) ByAddress (lit "0xabc") (lit "1")
         (lab_state 0 [4; 2]%nat)) = inr [4; 2]%nat /\
  fst (lookup_by (H := lab) AllByAddress (lit "0xabc") (lit "1")
         (lab_state 0 [4; 2]%nat)) = inr [4; 2]%nat.
Proof.
  split.
  - exact (f_equal fst
             (lookup_success_is_passed_through (H := lab) ByAddress
                (lit "0xabc") (lit "1") (lab_state 0 [4; 2]%nat)
                [4; 2]%nat (lab_world 0 [4; 2]%nat) eq_refl)).
  - exact (f_equal fst
             (lookup_success_is_passed_through (H := lab) AllByAddress
                (lit "0xabc") (lit "1") (lab_state 0 [4; 2]%nat)
                [4; 2]%nat (lab_world 0 [4; 2]%nat) eq_refl)).
Defined.

(** ** Further properties of the engine handle *)

Section Handle.

Context `{Collaborators}.

(** The first call with a construction that succeeds. *)
Lemma delegated_first (op : EngineOp) (s : State)
    (created : Injector) (w1 : World) :
  injector s = None ->
  Injector_createAsync (injectorConfig (world s)) (world s)
    = (inr created, w1) ->
  delegated op s =
  engine_call created op
    {| injector := Some created;
       trace := trace s ++ [EvCreateAsync (injectorConfig (world s))];
       world := w1 |}.
Proof.
  intros Hi Hc. apply delegated_ensured.
  unfold ensureInjector, bind, createInjector, call, set_injector.
  rewrite Hi, Hc. reflexivity.
Qed.

(** The lookups and metadata resolution stay away from the engine. *)
Lemma serve_other (r : Request) (s : State) :
  (forall op, r <> ReqEngine op) ->
  injector (serve s r) = injector s /\
  exists added,
    trace (serve s r) = trace s ++ added /\
    Forall (fun ev => engine_of_event ev = None /\
                      is_construction ev = false) added.
Proof.
  intros Hr. destruct r as [a c|a c|v n j|op]; simpl.
  - unfold findByAddress, bind, try_catch, call, record, ret.
    destruct (fileService_findByAddress a c (world s)) as [[e|ms] w]; simpl;
      (split; [reflexivity|]); eexists; (split; [try rewrite <- app_assoc;
      reflexivity|]); repeat constructor.
  - unfold findAllByAddress, bind, try_catch, call, record, ret.
    destruct (fileService_findAllByAddress a c (world s)) as [[e|ms] w];
      simpl; (split; [reflexivity|]); eexists;
      (split; [try rewrite <- app_assoc; reflexivity|]); repeat constructor.
  - destruct (useCompiler v j (world s)) as [[e|output] w'] eqn:Hc.
    + rewrite (compiler_throw_leaves_method v n j s e w' Hc). simpl.
      split; [reflexivity|]. eexists. split; [reflexivity|].
      repeat constructor.
    + rewrite (getMetadataFromJsonInput_returned _ _ _ _ _ _ Hc).
      unfold metadata_of_output, throw, ret, bind, record.
      destruct (findContractPathFromContractName (contracts output) n)
        as [path|].
      2:{ simpl. split; [reflexivity|]. eexists. split; [reflexivity|].
          repeat constructor. }
      destruct (negb (truthy_string path)).
      { simpl. split; [reflexivity|]. eexists. split; [reflexivity|].
        repeat constructor. }
      destruct (present_metadata output path n) as [m|].
      * destruct (JSON_parse (trim m)); simpl; (split; [reflexivity|]);
          eexists; (split; [reflexivity|]); repeat constructor.
      * destruct (errors output); simpl; (split; [reflexivity|]); eexists;
          (split; [try rewrite <- app_assoc; reflexivity|]);
          repeat constructor.
  - exfalso. exact (Hr op eq_refl).
Qed.

(** With the engine in place, every request keeps it and constructs
    nothing. *)
Lemma serve_ready (engine : Injector) (r : Request) (s : State) :
  injector s = Some engine ->
  injector (serve s r) = Some engine /\
  exists added,
    trace (serve s r) = trace s ++ added /\
    Forall (fun ev => is_construction ev = false /\
                      forall e', engine_of_event ev = Some e' -> e' = engine)
      added.
Proof.
  intros Hi. destruct r as [a c|a c|v n j|op].
  1-3: match goal with
       | |- context [serve ?s0 ?r] =>
           destruct (serve_other r s0) as (Hinj & added & Ht & Hall);
           [intros op; discriminate|]
       end;
       (split; [rewrite Hinj; exact Hi|]);
       exists added; (split; [exact Ht|]);
       eapply Forall_impl; [exact Hall|];
       intros ev [Hnone Hcons]; (split; [exact Hcons|]);
       intros e' He'; congruence.
  destruct (delegated_reuses engine op s Hi) as (ev & Ht & He & Hi').
  simpl. split; [exact Hi'|]. exists [ev]. split; [exact Ht|].
  constructor; [|constructor]. split.
  - destruct ev; simpl in *; try discriminate; reflexivity.
  - intros e' He'. congruence.
Qed.

Lemma serve_all_ready (engine : Injector) (reqs : list Request) :
  forall s,
    injector s = Some engine ->
    injector (serve_all reqs s) = Some engine /\
    exists added,
      trace (serve_all reqs s) = trace s ++ added /\
      Forall (fun ev => is_construction ev = false /\
                        forall e', engine_of_event ev = Some e' -> e' = engine)
        added.
Proof.
  induction reqs as [|r reqs IH]; intros s Hi.
  - split; [exact Hi|]. exists []. simpl. rewrite app_nil_r. auto.
  - destruct (serve_ready engine r s Hi) as (Hi1 & added1 & Ht1 & Hall1).
    destruct (IH _ Hi1) as (Hi2 & added2 & Ht2 & Hall2).
    unfold serve_all in *. simpl. split; [exact Hi2|].
    exists (added1 ++ added2). split.
    + rewrite Ht2, Ht1, <- app_assoc. reflexivity.
    + apply Forall_app. auto.
Qed.

Lemma constructions_none (evs : list Event) :
  Forall (fun ev => is_construction ev = false) evs ->
  constructions evs = 0%nat.
Proof.
  induction 1 as [|ev evs Hev _ IH]; [reflexivity|].
  unfold constructions in *. simpl. rewrite Hev. exact IH.
Qed.

End Handle.

Lemma engine_call_exact
    `{Collaborators} (engine : Injector) (op : EngineOp) (s : State) :
  engine_call engine op s =
  (fst (engine_outcome engine op (world s)),
   after_call s (engine_event engine op)
     (snd (engine_outcome engine op (world s)))).
Proof.
  destruct op; simpl;
    unfold fmap, bind, call, ret, lift_outcome, after_call.
  - destruct (Injector_inject engine injectorInput (world s)) as [[e|m] w];
      reflexivity.
  - destruct (Injector_verifyCreate2 engine contract deployerAddress salt
                constructorArgs create2Address (world s)) as [[e|m] w];
      reflexivity.
  - destruct (Injector_recompile engine contract (world s)) as [[e|m] w];
      reflexivity.
  - destruct (Injector_getBytecode engine address chainId (world s))
      as [[e|m] w]; reflexivity.
Qed.

(** X7.  The first delegated call on a service without an engine, when the
    construction succeeds, makes exactly two calls: [Injector.createAsync]
    with the store's repository path, then the operation it was asked for,
    with its arguments, on the engine just constructed; it ends with what
    that engine call answered, and the engine is kept in
    [this.injector]. *)
Theorem first_call_constructs_and_keeps
    `{Collaborators} (op : EngineOp) (s : State)
    (created : Injector) (w1 : World) :
  injector s = None ->
  Injector_createAsync (injectorConfig (world s)) (world s)
    = (inr created, w1) ->
  exists config,
    cfg_repositoryPath config = repositoryPath /\
    delegated op s =
    (fst (engine_outcome created op w1),
     {| injector := Some created;
        trace := trace s ++ [EvCreateAsync config; engine_event created op];
        world := snd (engine_outcome created op w1) |}).
Proof.
  intros Hi Hc. exists (injectorConfig (world s)). split; [reflexivity|].
  rewrite (delegated_first op s created w1 Hi Hc), engine_call_exact.
  unfold after_call. simpl. rewrite <- app_assoc. reflexivity.
Qed.

Lemma first_call_constructs_and_keeps_witness :
  exists config,
    cfg_repositoryPath config = lit "/repository" /\
    delegated (H := lab) (lab_inject 7) (lab_state 0 []) =
    (inr (VMatch (H := lab) 7%nat),
     {| injector := Some (lab_engine 0);
        trace := [EvCreateAsync config; EvInject (H := lab) (lab_engine 0) 7%nat];
        world := snd (lab_createAsync (lab_world 0 [])) |}).
Proof.
  exact (first_call_constructs_and_keeps (H := lab) (lab_inject 7)
           (lab_state 0 []) (lab_engine 0)
           (snd (lab_createAsync (lab_world 0 []))) eq_refl eq_refl).
Defined.

(** X8.  When the construction of the engine fails, the delegated call
    throws what the construction threw without calling the engine, and
    [this.injector] stays unset: the next delegated call starts a
    construction again, with the options read anew. *)
Theorem failed_construction_is_retried
    `{Collaborators} (op next : EngineOp) (s : State)
    (e : JsError) (w' : World) :
  injector s = None ->
  Injector_createAsync (injectorConfig (world s)) (world s) = (inl e, w') ->
  let s' := snd (delegated op s) in
  fst (delegated op s) = inl e /\
  trace s' = trace s ++ [EvCreateAsync (injectorConfig (world s))] /\
  injector s' = None /\
  exists rest,
    trace (snd (delegated next s')) =
    trace s' ++ EvCreateAsync (injectorConfig w') :: rest.
Proof.
  intros Hi Hc s'. subst s'.
  destruct (construction_failure_propagates op s e w' Hi Hc) as [Hd Hi'].
  rewrite Hd. simpl. repeat split; [exact Hi|].
  set (s1 := after_call s (EvCreateAsync (injectorConfig (world s))) w').
  change (trace s ++ [EvCreateAsync (injectorConfig (world s))])
    with (trace s1).
  change w' with (world s1) at 1.
  destruct (Injector_createAsync (injectorConfig (world s1)) (world s1))
    as [[e2|created] w2] eqn:Hc2.
  - destruct (construction_failure_propagates next s1 e2 w2 Hi Hc2)
      as [Hd2 _].
    rewrite Hd2. simpl. exists []. reflexivity.
  - rewrite (delegated_first next s1 created w2 Hi Hc2).
    destruct (engine_call_spec created next
                {| injector := Some created;
                   trace := trace s1 ++
                     [EvCreateAsync (injectorConfig (world s1))];
                   world := w2 |}) as (ev & r & w & -> & _ & _).
    simpl. exists [ev]. rewrite <- app_assoc. reflexivity.
Qed.

(** One failing construction, then a call that succeeds with engine 0. *)
Lemma failed_construction_is_retried_witness :
  let s' := snd (delegated (H := lab) (lab_inject 7) (lab_state 1 [])) in
  fst (delegated (H := lab) (lab_inject 7) (lab_state 1 []))
  = inl (Error (lit "ECONNREFUSED")) /\
  injector s' = None /\
  fst (delegated (H := lab) (lab_inject 7) s') = inr (VMatch (H := lab) 7%nat) /\
  constructions (trace (snd (delegated (H := lab) (lab_inject 7) s')))
  = 2%nat.
Proof.
  pose proof (failed_construction_is_retried (H := lab)
                (lab_inject 7) (lab_inject 7) (lab_state 1 [])
                (Error (lit "ECONNREFUSED"))
                (snd (lab_createAsync (lab_world 1 [])))
                eq_refl eq_refl) as (Hthrown & _ & Hunset & _).
  split; [exact Hthrown|]. split; [exact Hunset|].
  split; reflexivity.
Defined.

(** X9.  Once [this.injector] holds an engine, no sequence of requests to
    any of the seven methods, served one after the other, changes it or
    constructs another one, and every call made on an engine is made on
    that one. *)
Theorem engine_kept_by_every_request
    `{Collaborators} (engine : Injector) (reqs : list Request) (s : State) :
  injector s = Some engine ->
  injector (serve_all reqs s) = Some engine /\
  constructions (trace (serve_all reqs s)) = constructions (trace s) /\
  exists added,
    trace (serve_all reqs s) = trace s ++ added /\
    Forall (fun ev => forall e', engine_of_event ev = Some e' -> e' = engine)
      added.
Proof.
  intros Hi.
  destruct (serve_all_ready engine reqs s Hi) as (Hi' & added & Ht & Hall).
  split; [exact Hi'|]. split.
  - rewrite Ht, constructions_app, (constructions_none added); [lia|].
    eapply Forall_impl; [exact Hall|]. intros ev [Hc _]. exact Hc.
  - exists added. split; [exact Ht|].
    eapply Forall_impl; [exact Hall|]. intros ev [_ He]. exact He.
Qed.

(** A first [inject] constructs engine 0; lookups, a metadata resolution
    and two more engine operations follow. *)
Lemma engine_kept_by_every_request_witness :
  let s1 := snd (delegated (H := lab) (lab_inject 7) (lab_state 0 [4%nat])) in
  let reqs :=
    [ReqFindByAddress (H := lab) (lit "0xabc") (lit "1");
     ReqEngine (OpGetBytecode (H := lab) (lit "0xabc") (lit "1"));
     ReqGetMetadata (H := lab) (lit "0.8.4") (lit "Foo")
       (lab_compiles_to errors_output);
     ReqFindAllByAddress (H := lab) (lit "0xabc") (lit "1");
     ReqEngine (lab_inject 5)] in
  injector s1 = Some (lab_engine 0) /\
  injector (serve_all reqs s1) = Some (lab_engine 0) /\
  constructions (trace (serve_all reqs s1)) = constructions (trace s1) /\
  exists added,
    trace (serve_all reqs s1) = trace s1 ++ added /\
    Forall (fun ev => forall e',
              engine_of_event ev = Some e' -> e' = lab_engine 0) added.
Proof.
  intros s1 reqs. split; [reflexivity|].
  exact (engine_kept_by_every_request (H := lab) (lab_engine 0) reqs s1
           eq_refl).
Defined.

Section SingleEngine.

Context `{Collaborators}.

Lemma serve_all_cons (r : Request) (reqs : list Request) (s : State) :
  serve_all (r :: reqs) s = serve_all reqs (serve s r).
Proof. reflexivity. Qed.

(** From any state: the calls made on an engine all went to the engine the
    field holds in the end. *)
Lemma serve_all_single_engine (reqs : list Request) :
  forall s,
    exists added,
      trace (serve_all reqs s) = trace s ++ added /\
      forall ev e',
        In ev added -> engine_of_event ev = Some e' ->
        injector (serve_all reqs s) = Some e'.
Proof.
  induction reqs as [|r reqs IH]; intros s.
  { exists []. simpl. rewrite app_nil_r. split; [reflexivity|].
    intros ev e' []. }
  destruct (injector s) as [engine|] eqn:Hi.
  - (* the engine is there already *)
    destruct (serve_all_ready engine (r :: reqs) s Hi)
      as (Hi' & added & Ht & Hall).
    exists added. split; [exact Ht|].
    intros ev e' Hin He. rewrite Hi'. f_equal. symmetry.
    rewrite List.Forall_forall in Hall.
    exact (proj2 (Hall ev Hin) e' He).
  - rewrite serve_all_cons.
    assert (forall added1,
              trace (serve s r) = trace s ++ added1 ->
              (forall ev e', In ev added1 -> engine_of_event ev = Some e' ->
                             injector (serve_all reqs (serve s r)) = Some e') ->
              exists added,
                trace (serve_all reqs (serve s r)) = trace s ++ added /\
                forall ev e',
                  In ev added -> engine_of_event ev = Some e' ->
                  injector (serve_all reqs (serve s r)) = Some e') as Hglue.
    { intros added1 Ht1 Hfirst.
      destruct (IH (serve s r)) as (added2 & Ht2 & Hrest).
      exists (added1 ++ added2). split.
      - rewrite Ht2, Ht1, <- app_assoc. reflexivity.
      - intros ev e' Hin He. apply in_app_or in Hin as [Hin|Hin].
        + exact (Hfirst ev e' Hin He).
        + exact (Hrest ev e' Hin He). }
    destruct r as [a c|a c|v n j|op].
    1-3: match goal with
         | |- context [serve ?s0 ?r] =>
             destruct (serve_other r s0) as (_ & added1 & Ht1 & Hall1);
             [intros op; discriminate|]
         end;
         apply (Hglue added1 Ht1); intros ev e' Hin He;
         rewrite List.Forall_forall in Hall1;
         destruct (Hall1 ev Hin) as [Hnone _]; congruence.
    destruct (Injector_createAsync (injectorConfig (world s)) (world s))
      as [[e|created] w1] eqn:Hc.
    + (* the construction fails: no engine call *)
      destruct (construction_failure_propagates op s e w1 Hi Hc) as [Hd _].
      apply (Hglue [EvCreateAsync (injectorConfig (world s))]).
      * simpl. rewrite Hd. reflexivity.
      * intros ev e' [<-|[]] He. discriminate.
    + (* the construction succeeds: the engine is kept from here on *)
      pose proof (delegated_first op s created w1 Hi Hc) as Hd.
      destruct (engine_call_spec created op
                  {| injector := Some created;
                     trace := trace s ++
                       [EvCreateAsync (injectorConfig (world s))];
                     world := w1 |}) as (ev1 & r1 & w & Hcall & He1 & _).
      rewrite Hcall in Hd.
      apply (Hglue [EvCreateAsync (injectorConfig (world s)); ev1]).
      * simpl. rewrite Hd. simpl. rewrite <- app_assoc. reflexivity.
      * assert (injector (serve s (ReqEngine op)) = Some created) as Hi1
          by (simpl; rewrite Hd; reflexivity).
        destruct (serve_all_ready created reqs _ Hi1) as (Hfinal & _).
        intros ev e' [<-|[<-|[]]] He; [discriminate|].
        rewrite Hfinal. congruence.
Qed.

End SingleEngine.

(** X10.  In any sequence of requests served one after the other, from any
    state and whatever fails on the way, all the calls made on an engine
    are made on one and the same engine, the one [this.injector] holds in
    the end. *)
Theorem sequential_requests_use_one_engine
    `{Collaborators} (reqs : list Request) (s : State) :
  exists added,
    trace (serve_all reqs s) = trace s ++ added /\
    forall ev engine,
      In ev added -> engine_of_event ev = Some engine ->
      injector (serve_all reqs s) = Some engine.
Proof. exact (serve_all_single_engine reqs s). Qed.

(** Two failing constructions, then engine 0 serves the rest. *)
Example sequential_requests_after_failures :
  let s :=
    serve_all
      [ReqEngine (lab_inject 1); ReqEngine (lab_inject 2);
       ReqEngine (lab_inject 3); ReqEngine (lab_inject 4)]
      (lab_state 2 []) in
  injector s = Some (lab_engine 0) /\
  constructions (trace s) = 3%nat /\
  List.map engine_of_event (trace s) =
  [None; None; None; Some (lab_engine 0); Some (lab_engine 0)].
Proof. repeat split; reflexivity. Qed.

(** ** Further properties of calls in flight at the same time *)

Section LastWriter.

Context `{Collaborators}.

(** Resuming one task leaves the others as they are. *)
Lemma resume_other (sys : Sys) (i j : nat) :
  i <> j -> tasks (resume sys j) !! i = tasks sys !! i.
Proof.
  intros Hij. unfold resume.
  destruct (tasks sys !! j) as [[op [e|created]|used r]|]; try reflexivity.
  - simpl. apply list_lookup_insert_ne. congruence.
  - simpl.
    destruct (engine_call created op _) as [r s2]. simpl.
    apply list_lookup_insert_ne. congruence.
Qed.

Lemma resume_all_other (order : list nat) (i : nat) :
  ~ In i order ->
  forall sys, tasks (fold_left resume order sys) !! i = tasks sys !! i.
Proof.
  induction order as [|j order IH]; intros Hnot sys; [reflexivity|].
  simpl. rewrite IH by (intros Hin; apply Hnot; right; exact Hin).
  apply resume_other. intros ->. apply Hnot. left. reflexivity.
Qed.

(** A task resumed after a successful construction leaves its own engine
    in [this.injector]. *)
Lemma resume_writes_injector (sys : Sys) (i : nat) (op : EngineOp)
    (created : Injector) :
  tasks sys !! i = Some (Suspended op (inr created)) ->
  injector (svc (resume sys i)) = Some created.
Proof.
  intros Hi. unfold resume. rewrite Hi. simpl.
  destruct (engine_call_spec created op
              {| injector := Some created; trace := trace (svc sys);
                 world := world (svc sys) |}) as (ev & r & w & -> & _).
  reflexivity.
Qed.

End LastWriter.

(** X11.  Among calls in flight at the same time, the last one to resume
    wins: when its construction succeeded, [this.injector] holds the engine
    of that call afterwards, whichever engines the calls resumed before it
    had stored there. *)
Theorem last_resumed_call_owns_the_handle
    `{Collaborators} (ops : list EngineOp) (order : list nat) (i : nat)
    (s : State) (op : EngineOp) (created : Injector) :
  tasks (fold_left invoke ops {| svc := s; tasks := [] |}) !! i
    = Some (Suspended op (inr created)) ->
  ~ In i order ->
  injector (svc (concurrent_calls ops (order ++ [i]) s)) = Some created.
Proof.
  intros Hi Hnot. unfold concurrent_calls.
  rewrite fold_left_app. simpl.
  apply (resume_writes_injector _ i op).
  rewrite (resume_all_other order i Hnot). exact Hi.
Qed.

(** Three [inject] calls in flight: resumed in the order 2, 0, 1 the field
    ends with engine 1; resumed in the order 1, 2, 0 it ends with engine
    0. *)
Lemma last_resumed_call_owns_the_handle_witness :
  let ops := [OpInject (H := demo) 7%nat; OpInject (H := demo) 8%nat;
              OpInject (H := demo) 9%nat] in
  injector (svc (concurrent_calls ops ([2; 0] ++ [1])%nat (demo_state None)))
  = Some (engine_no 1) /\
  injector (svc (concurrent_calls ops ([1; 2] ++ [0])%nat (demo_state None)))
  = Some (engine_no 0).
Proof.
  intros ops. split.
  - refine (last_resumed_call_owns_the_handle (H := demo) ops [2; 0]%nat
              1%nat (demo_state None) (OpInject (H := demo) 8%nat)
              (engine_no 1) eq_refl _).
    simpl. intros [Hin|[Hin|[]]]; discriminate.
  - refine (last_resumed_call_owns_the_handle (H := demo) ops [1; 2]%nat
              0%nat (demo_state None) (OpInject (H := demo) 7%nat)
              (engine_no 0) eq_refl _).
    simpl. intros [Hin|[Hin|[]]]; discriminate.
Defined.

Section Window.

Context `{Collaborators}.

Lemma resume_constructs_nothing (sys : Sys) (i : nat) :
  constructions (trace (svc (resume sys i))) =
  constructions (trace (svc sys)).
Proof.
  unfold resume.
  destruct (tasks sys !! i) as [[op [e|created]|used r]|]; try reflexivity.
  simpl.
  destruct (engine_call_spec created op
              {| injector := Some created; trace := trace (svc sys);
                 world := world (svc sys) |}) as (ev & r & w & -> & _ & Hev).
  simpl. rewrite constructions_app. unfold constructions at 2. simpl.
  rewrite Hev. simpl. lia.
Qed.

Lemma resume_keeps_set (sys : Sys) (i : nat) :
  injector (svc sys) <> None -> injector (svc (resume sys i)) <> None.
Proof.
  intros Hset. unfold resume.
  destruct (tasks sys !! i) as [[op [e|created]|used r]|]; try exact Hset.
  simpl.
  destruct (engine_call_spec created op
              {| injector := Some created; trace := trace (svc sys);
                 world := world (svc sys) |}) as (ev & r & w & -> & _).
  simpl. discriminate.
Qed.

Lemma invoke_set (sys : Sys) (op : EngineOp) :
  injector (svc sys) <> None ->
  injector (svc (invoke sys op)) <> None /\
  constructions (trace (svc (invoke sys op))) =
  constructions (trace (svc sys)).
Proof.
  intros Hset. unfold invoke.
  destruct (injector (svc sys)) as [engine|] eqn:Hi; [|contradiction].
  destruct (engine_call_spec engine op (svc sys))
    as (ev & r & w & -> & _ & Hev).
  simpl. split; [rewrite Hi; discriminate|].
  rewrite constructions_app. unfold constructions at 2. simpl.
  rewrite Hev. simpl. lia.
Qed.

Lemma invoke_constructs_at_most_one (sys : Sys) (op : EngineOp) :
  (constructions (trace (svc (invoke sys op))) <=
   Datatypes.S (constructions (trace (svc sys))))%nat.
Proof.
  destruct (injector (svc sys)) as [engine|] eqn:Hi.
  - destruct (invoke_set sys op) as [_ ->]; [rewrite Hi; discriminate|lia].
  - destruct (invoke_unset sys op Hi) as (_ & -> & _). lia.
Qed.

End Window.

(** X12.  Once [this.injector] is set, nothing that happens afterwards, in
    any interleaving of new calls and of resumptions of calls still in
    flight, constructs another engine or unsets the field. *)
Theorem no_construction_once_set
    `{Collaborators} (sched : list Action) (sys : Sys) :
  injector (svc sys) <> None ->
  constructions (trace (svc (run_schedule sched sys))) =
    constructions (trace (svc sys)) /\
  injector (svc (run_schedule sched sys)) <> None.
Proof.
  revert sys. induction sched as [|a sched IH]; intros sys Hset.
  - split; [reflexivity|exact Hset].
  - unfold run_schedule in *. simpl. destruct a as [op|i]; simpl.
    + destruct (invoke_set sys op Hset) as [Hset' Hc].
      destruct (IH _ Hset') as [Hc' Hfinal].
      split; [rewrite Hc', Hc; reflexivity|exact Hfinal].
    + destruct (IH _ (resume_keeps_set sys i Hset)) as [Hc' Hfinal].
      split; [rewrite Hc', resume_constructs_nothing; reflexivity|
              exact Hfinal].
Qed.

(** Two calls in flight, the first resumed: from there on a new call, the
    resumption of the second call and one more call construct nothing. *)
Lemma no_construction_once_set_witness :
  let sys :=
    run_schedule
      [Invoke (OpInject (H := demo) 7%nat);
       Invoke (OpInject (H := demo) 8%nat); Resume 0%nat]
      {| svc := demo_state None; tasks := [] |} in
  let later :=
    [Invoke (OpInject (H := demo) 9%nat); Resume 1%nat;
     Invoke (OpInject (H := demo) 10%nat)] in
  constructions (trace (svc sys)) = 2%nat /\
  constructions (trace (svc (run_schedule later sys))) =
    constructions (trace (svc sys)) /\
  injector (svc (run_schedule later sys)) <> None.
Proof.
  intros sys later. split; [reflexivity|].
  exact (no_construction_once_set (H := demo) later sys
           ltac:(discriminate)).
Defined.

(** X13.  In any interleaving, from any state, at most one engine is
    constructed per call invoked. *)
Theorem constructions_bounded_by_calls
    `{Collaborators} (sched : list Action) (sys : Sys) :
  (constructions (trace (svc (run_schedule sched sys))) <=
   constructions (trace (svc sys)) + invocations sched)%nat.
Proof.
  revert sys. induction sched as [|a sched IH]; intros sys.
  - simpl. lia.
  - unfold run_schedule, invocations in *. simpl.
    destruct a as [op|i]; simpl.
    + pose proof (IH (invoke sys op)) as Hrest.
      pose proof (invoke_constructs_at_most_one sys op) as Hone. lia.
    + pose proof (IH (resume sys i)) as Hrest.
      rewrite resume_constructs_nothing in Hrest. exact Hrest.
Qed.

(** ** Calls in flight at the same time, call by call *)

Section EachItsOwn.

Context `{Collaborators}.







End EachItsOwn.


